(** * imgbot: the URL-resolution pipeline of [imgbot.py]

    A shallow embedding of the module-level selector table, the resolver
    ([get_request], [get_direct_image_url], [get_post_image_url]), the
    filter ([ignore_post]) and the router ([route_posts]), together with the
    properties of the pipeline that the specification states.

    Python values are modelled as follows.
    - A [str] is a [string]; a character is read as a code point below 256.
    - A [dict] with string keys is a [gmap string _].  The rule dictionaries
      of [IMAGE_SELECTORS] are objects on a heap, the table holds references
      to them, and [dict.copy] allocates: aliasing is visible in the model.
    - An exception is a constructor of [exn]; a computation is a function
      from the interpreter state to a new state and either a value or a
      raised exception.
    - The collaborators ([requests], [urlparse], [BeautifulSoup], [zipfile])
      are a [world]: what a GET on a URL answers, the network location of a
      URL, the elements of a page in document order, whether a body is a
      zip archive. *)

From Stdlib Require Import String Ascii NArith List Bool.
From stdpp Require Import gmap strings list fin_maps.

Local Open Scope string_scope.

(** ** Strings: the [str] methods the module uses *)

Module PyStr.

(** [c.lower()] for one character below U+0100: the upper-case letters are
    [A]..[Z] and U+00C0..U+00DE without U+00D7. *)
Definition lower_ascii (c : ascii) : ascii :=
  let n := N_of_ascii c in
  if ((65 <=? n) && (n <=? 90))%N then ascii_of_N (n + 32)
  else if ((192 <=? n) && (n <=? 222) && negb (n =? 215))%N
       then ascii_of_N (n + 32)
  else c.

(** [s.lower()] *)
Fixpoint lower (s : string) : string :=
  match s with
  | EmptyString => EmptyString
  | String c s' => String (lower_ascii c) (lower s')
  end.

(** [s.startswith(p)] *)
Definition startswith (p s : string) : bool := String.prefix p s.

(** [sub in s] *)
Fixpoint contains (sub s : string) : bool :=
  startswith sub s ||
  match s with
  | EmptyString => false
  | String _ s' => contains sub s'
  end.

(** [s.endswith(x)] *)
Fixpoint endswith (x s : string) : bool :=
  String.eqb x s ||
  match s with
  | EmptyString => false
  | String _ s' => endswith x s'
  end.

(** [s.endswith(t)] for a tuple [t] of suffixes, and [s.startswith(t)] *)
Definition endswith_any (t : list string) (s : string) : bool :=
  existsb (fun x => endswith x s) t.

Definition startswith_any (t : list string) (s : string) : bool :=
  existsb (fun p => startswith p s) t.

(** [os.path.basename(s)]: what follows the last slash. *)
Fixpoint basename (s : string) : string :=
  match s with
  | EmptyString => EmptyString
  | String c s' => if contains "/" s' then basename s' else
                     if Ascii.eqb c "/" then s' else s
  end.

End PyStr.

Export PyStr.

(** ** Python values, exceptions and the interpreter state *)

(** The exceptions that the pipeline can meet.  [ConnectionError] is the
    built-in that [get_request] raises on a response that is not [ok];
    [RequestException] stands for what [session.get] itself raises on a
    transport failure, which is a class of [requests] and not a subclass of
    the built-in [ConnectionError]; [PrawcoreException] stands for what the
    platform client raises other than [NotFound]. *)
Inductive exn : Type :=
  | ConnectionError
  | AttributeError
  | KeyError (key : string)
  | TypeError
  | BadZipFile
  | OSError
  | RequestException
  | PrawcoreException.

#[global] Instance exn_eq_dec : EqDecision exn.
Proof. solve_decision. Defined.

(** An element of a parsed page: its tag name and its attributes, each
    with its value as one string.  An attribute that the parser splits into
    several tokens (a [class] or [rel] with more than one word) is outside
    this model. *)
Record tag : Type := Tag {
  tag_name : string;
  tag_attrs : gmap string string
}.

(** The response object of [requests]: [req.ok], [req.url], [req.text] and
    [req.content]. *)
Record response : Type := Response {
  ok : bool;
  resp_url : string;
  text : string;
  content : string
}.

(** What the run does to the outside: GET requests, lines printed, files
    written, archives extracted.  [WriteFile] and [ExtractAll] record a call
    of [save_image] or [extract_album] that returned; what a call that
    raises has left on disk by then is not recorded. *)
Inductive event : Type :=
  | Get (url : string)
  | Print (line : string)
  | WriteFile (file : string) (body : string)
  | ExtractAll (path : string) (entries : list string).

#[global] Instance event_eq_dec : EqDecision event.
Proof. solve_decision. Defined.

(** The collaborators.  [session_get url] is what [session.get(url)]
    answers, [None] when it raises; [netloc url] is [urlparse(url).netloc];
    [html_parser text] is the elements of [BeautifulSoup(text, 'html.parser')]
    in document order; [unzip body] is the entries that [extractall] writes,
    [None] when the body is not a zip archive; [open_wb file] tells whether
    [file] can be opened with [open(file, 'wb')] and written. *)
Record world : Type := World {
  session_get : string -> option response;
  netloc : string -> string;
  html_parser : string -> list tag;
  unzip : string -> option (list string);
  open_wb : string -> bool
}.

(** A selector rule is a [dict] from strings to strings. *)
Abbreviation rule := (gmap string string).
Abbreviation ref := nat.

(** The interpreter state: the [dict] objects allocated so far, the global
    [IMAGE_SELECTORS] (domain to a reference to its rule), and the events
    emitted so far, oldest first. *)
Record state : Type := State {
  heap : gmap ref rule;
  IMAGE_SELECTORS : gmap string ref;
  trace : list event
}.

Inductive result (A : Type) : Type :=
  | Ok (a : A)
  | Raise (e : exn).
Arguments Ok {A} a.
Arguments Raise {A} e.

(** A computation: state in, state and value-or-exception out. *)
Definition M (A : Type) : Type := state -> state * result A.

Definition ret {A} (a : A) : M A := fun st => (st, Ok a).
Definition raise {A} (e : exn) : M A := fun st => (st, Raise e).
Definition bind {A B} (m : M A) (k : A -> M B) : M B :=
  fun st => match m st with
            | (st', Ok a) => k a st'
            | (st', Raise e) => (st', Raise e)
            end.

(** [try: m  except e1: h1 ...]: [h e] is the handler clause that matches
    [e], if any; an exception without a clause goes on. *)
Definition try_except {A} (m : M A) (h : exn -> option (M A)) : M A :=
  fun st => match m st with
            | (st', Ok a) => (st', Ok a)
            | (st', Raise e) => match h e with
                                | Some k => k st'
                                | None => (st', Raise e)
                                end
            end.

Declare Scope py_scope.
Delimit Scope py_scope with py.
Notation "x <- m ;; k" := (bind m (fun x => k))
  (at level 100, m at next level, right associativity) : py_scope.
Notation "m ;;; k" := (bind m (fun _ => k))
  (at level 100, right associativity) : py_scope.
Local Open Scope py_scope.

(** The state with one more event. *)
Definition log (st : state) (e : event) : state :=
  State (heap st) (IMAGE_SELECTORS st) (trace st ++ [e]).

Definition emit (e : event) : M unit := fun st => (log st e, Ok tt).

(** [print(line)] *)
Definition print (line : string) : M unit := emit (Print line).

(** *** Dictionary objects *)

(** The object behind a reference. *)
Definition deref (l : ref) : M rule := fun st => (st, Ok (heap st !!! l)).

(** [d.copy()]: a new object with the same items. *)
Definition dict_copy (l : ref) : M ref :=
  fun st => let l' := fresh (dom (heap st)) in
            (State (<[l' := heap st !!! l]> (heap st)) (IMAGE_SELECTORS st) (trace st),
             Ok l').

(** [d.pop(k)]: removes the item from the object and returns its value;
    [KeyError] when there is none. *)
Definition dict_pop (l : ref) (k : string) : M string :=
  fun st => match (heap st !!! l : rule) !! k with
            | Some v => (State (<[l := delete k (heap st !!! l)]> (heap st))
                               (IMAGE_SELECTORS st) (trace st), Ok v)
            | None => (st, Raise (KeyError k))
            end.

(** [IMAGE_SELECTORS[k]] *)
Definition selectors_getitem (k : string) : M ref :=
  fun st => match IMAGE_SELECTORS st !! k with
            | Some l => (st, Ok l)
            | None => (st, Raise (KeyError k))
            end.

(** [IMAGE_SELECTORS.get(k, d)] *)
Definition selectors_get (k : string) (d : ref) : M ref :=
  fun st => (st, Ok (default d (IMAGE_SELECTORS st !! k))).

(** ** Module level: constants and the selector table *)

(** [IMAGE_FORMATS]: these extensions are recognised as direct images. *)
Definition IMAGE_FORMATS : list string := [".png"; ".gif"; ".gifv"; ".jpg"; ".jpeg"].

(** The built-in rules, as the literal of [IMAGE_SELECTORS] writes them. *)
Definition default_rule : rule :=
  {[ "name" := "meta"; "property" := "og:image"; "link" := "content" ]}.
Definition imgur_rule : rule :=
  {[ "name" := "link"; "rel" := "image_src"; "link" := "href" ]}.
Definition tinypic_rule : rule :=
  {[ "name" := "a"; "class" := "thickbox"; "link" := "href" ]}.
Definition gfycat_rule : rule :=
  {[ "name" := "meta"; "property" := "og:url"; "link" := "content" ]}.

(** The state after the dictionary literal has been evaluated: four rule
    objects and the table that refers to them. *)
Definition builtin_state : state :=
  State {[ 0 := default_rule; 1 := imgur_rule; 2 := tinypic_rule; 3 := gfycat_rule ]}
        {[ "default" := 0; "imgur.com" := 1; "tinypic.com" := 2; "gfycat.com" := 3 ]}
        [].

(** What the module body finds at [selectors.json], for the outcomes in
    which the import completes: no such file; a file for which [open] or the
    read raises [IOError]; a file for which [json.load] raises
    [JSONDecodeError]; a JSON object of the shape [{domain: {key: value}}]
    with strings as values.  A file on which the module body raises (bytes
    that are not UTF-8, JSON that is not an object) ends the import before
    any function can be called, and is not a case of this type. *)
Inductive selectors_file : Type :=
  | NoFile
  | Unreadable
  | Undecodable
  | Selectors (selectors : gmap string rule).

(** [json.load] builds one new [dict] object per rule of the file. *)
Definition alloc_rule (domain : string) (r : rule)
    (acc : gmap ref rule * gmap string ref) : gmap ref rule * gmap string ref :=
  let l := fresh (dom acc.1) in (<[l := r]> acc.1, <[domain := l]> acc.2).

Definition json_load (selectors : gmap string rule) (h : gmap ref rule)
    : gmap ref rule * gmap string ref :=
  map_fold alloc_rule (h, ∅) selectors.

(** The module body from the literal to the merge
    [IMAGE_SELECTORS = {**IMAGE_SELECTORS, **selectors}]: the items of the
    file come last and win. *)
Definition load_selectors (f : selectors_file) : state :=
  match f with
  | NoFile => builtin_state
  | Undecodable =>
      (print "[-] Failed to decode selectors.json. Check formatting." builtin_state).1
  | Unreadable =>
      (print "[-] Failed to load selectors.json. Check permissions." builtin_state).1
  | Selectors selectors =>
      let '(h, refs) := json_load selectors (heap builtin_state) in
      State h (refs ∪ IMAGE_SELECTORS builtin_state) (trace builtin_state)
  end.

(** The rule that resolution reads for a domain:
    [IMAGE_SELECTORS.get(domain, IMAGE_SELECTORS["default"])], followed
    through the reference. *)
Definition rule_for (st : state) (domain : string) : result rule :=
  snd ((l0 <- selectors_getitem "default" ;;
        l <- selectors_get domain l0 ;;
        deref l) st).

(** ** The resolver *)

(** A reddit post, as far as the pipeline reads it. *)
Record post : Type := Post {
  post_url : string;
  post_title : string;
  post_stickied : bool;
  post_is_self : bool;
  post_over_18 : bool
}.

(** [session.get(url)] *)
Definition session_get_call (w : world) (url : string) : M response :=
  emit (Get url) ;;;
  match session_get w url with
  | Some req => ret req
  | None => raise RequestException
  end.

(** A bare [raise] inside an [except] clause. *)
Definition reraise {A} (e : exn) : M A := raise e.

(** Some URLs come without the protocol: the first two lines of
    [get_request]. *)
Definition with_scheme (url : string) : string :=
  if negb (startswith_any ["http://"; "https://"] url) then "http://" ++ url else url.

Definition get_request (w : world) (url : string) : M response :=
  let url := with_scheme url in
  req <- session_get_call w url ;;
  if negb (ok req) then raise ConnectionError else ret req.

(** [soup.find] with the items of [selectors] as keyword arguments: the
    item [name] selects the tag name, every other item asks for an attribute
    with that value; the result is the first element in document order that
    satisfies all of them, or [None].  This is [find] for rules like the
    built-in ones, on attributes with one token; the keyword arguments that
    [find] reads for itself ([attrs], [string], [recursive], [limit]) are
    not modelled. *)
Definition matches (selectors : rule) (t : tag) : bool :=
  match selectors !! "name" with
  | Some n => String.eqb n (tag_name t)
  | None => true
  end
  && bool_decide (map_Forall (fun k v => tag_attrs t !! k = Some v)
                             (delete "name" selectors)).

Definition soup_find (soup : list tag) (selectors : ref) : M (option tag) :=
  d <- deref selectors ;;
  ret (List.find (matches d) soup).

(** [img.get(link)]: [None] has no [get]; a tag answers the attribute, or
    [None] when it has none of that name. *)
Definition img_get (img : option tag) (link : string) : M (option string) :=
  match img with
  | None => raise AttributeError
  | Some t => ret (tag_attrs t !! link)
  end.

Definition get_direct_image_url (w : world) (url : string) : M (option string) :=
  req <- try_except (get_request w url)
           (fun e => match e with
                     | ConnectionError => Some (reraise e)
                     | _ => None
                     end) ;;
  let domain := netloc w url in
  d <- selectors_getitem "default" ;;
  r <- selectors_get domain d ;;
  selectors <- dict_copy r ;;
  link <- dict_pop selectors "link" ;;
  let soup := html_parser w (text req) in
  img <- soup_find soup selectors ;;
  try_except (img_get img link)
    (fun e => match e with
              | AttributeError => Some (reraise e)
              | _ => None
              end).

Definition get_post_image_url (w : world) (p : post) : M (option string) :=
  let url := post_url p in
  if endswith_any IMAGE_FORMATS (lower url) then ret (Some url)
  else if contains "/a/" url then ret (Some (url ++ "/zip"))
  else
    try_except (get_direct_image_url w url)
      (fun e => match e with
                | ConnectionError | AttributeError => Some (reraise e)
                | _ => None
                end).

(** ** Persisting *)

(** [os.path.join(path, filename)] *)
Definition os_path_join (path filename : string) : string :=
  if startswith "/" filename then filename
  else if String.eqb path "" || endswith "/" path then path ++ filename
  else path ++ "/" ++ filename.

Definition save_image (w : world) (req : response) (path : string) : M unit :=
  let filename := basename (resp_url req) in
  let file := os_path_join path filename in
  if open_wb w file then emit (WriteFile file (content req)) else raise OSError.

Definition extract_album (w : world) (req : response) (path : string) : M unit :=
  match unzip w (content req) with
  | Some entries => emit (ExtractAll path entries)
  | None => raise BadZipFile
  end.

(** ** The filter and the router *)

(** [ignore_post]; the URL is what the resolver returned, a string or
    [None], and ['/zip' in None] is a [TypeError]. *)
Definition ignore_post (url : option string) (albums gifs : bool) (title : string)
    : M bool :=
  match url with
  | None => raise TypeError
  | Some url =>
      if contains "/zip" url && negb albums then
        print ("[-] Ignoring album: " ++ title) ;;; ret true
      else if endswith_any [".gif"; ".gifv"] url && negb gifs then
        print ("[-] Ignoring gif: " ++ title) ;;; ret true
      else ret false
  end.

(** How a step of the loop body ends: [continue], or on with a value. *)
Inductive flow (A : Type) : Type :=
  | Continue
  | Go (a : A).
Arguments Continue {A}.
Arguments Go {A} a.

(** The body of the [for] loop of [route_posts]. *)
(** The test that opens the loop body: stickied posts, self posts, and
    adult posts when [nsfw] is off. *)
Definition skip_before_resolve (p : post) (nsfw : bool) : bool :=
  (post_stickied p || post_is_self p) || (post_over_18 p && negb nsfw).

Definition route_post (w : world) (albums gifs nsfw : bool) (path : string)
    (p : post) : M unit :=
  if skip_before_resolve p nsfw then ret tt
  else
    r <- try_except (url <- get_post_image_url w p ;; ret (Go url))
           (fun e => match e with
                     | ConnectionError =>
                         Some (print ("[-] Encountered bad url: " ++ post_url p) ;;;
                               ret Continue)
                     | AttributeError =>
                         Some (print ("[-] Could not extract link from " ++ post_url p) ;;;
                               ret Continue)
                     | _ => None
                     end) ;;
    match r with
    | Continue => ret tt
    | Go url =>
        ignored <- ignore_post url albums gifs (post_title p) ;;
        if negb ignored then
          match url with
          | None => raise AttributeError
          | Some url =>
              r <- try_except (req <- get_request w url ;; ret (Go req))
                     (fun e => match e with
                               | ConnectionError =>
                                   Some (print ("[-] Encountered bad url: " ++ url) ;;;
                                         ret Continue)
                               | _ => None
                               end) ;;
              match r with
              | Continue => ret tt
              | Go req =>
                  (if contains "/zip" url then extract_album w req path
                   else save_image w req path) ;;;
                  print ("[+] Downloaded " ++ post_title p)
              end
          end
        else ret tt
    end.

Fixpoint route_posts (w : world) (posts : list post) (albums gifs nsfw : bool)
    (path : string) : M unit :=
  match posts with
  | [] => ret tt
  | p :: posts' =>
      route_post w albums gifs nsfw path p ;;;
      route_posts w posts' albums gifs nsfw path
  end.

(** The kind of a resolved resource is not a value of the program: the
    resolver returns a URL only, and both the filter and the router tell an
    album from an image with the test ['/zip' in url]. *)
Inductive kind : Type := single_image | album_archive.

Definition kind_of (url : string) : kind :=
  if contains "/zip" url then album_archive else single_image.

(** The rules of the table, read through their references. *)
Definition table_view (st : state) : gmap string rule :=
  (fun l => heap st !!! l) <$> IMAGE_SELECTORS st.

(** Every reference of the table points to an allocated object. *)
Definition table_wf (st : state) : Prop :=
  map_Forall (fun _ l => l ∈ dom (heap st)) (IMAGE_SELECTORS st).

(** The state in which [get_direct_image_url] leaves the interpreter once the
    page has been fetched and the rule [r] has been copied to a new object:
    that object, without [link] when [popped]. *)
Definition resolved_state (url : string) (st : state) (r : rule) (popped : bool) : state :=
  State (<[fresh (dom (heap st)) := if popped then delete "link" r else r]> (heap st))
        (IMAGE_SELECTORS st)
        (trace st ++ [Get (with_scheme url)]).

(** What [json_load] guarantees while it allocates: the objects that were
    there are still there, and the references it hands out lead to the rules
    of the file, item for item. *)
Definition json_load_inv (h : gmap ref rule) (acc : gmap ref rule * gmap string ref)
    (m : gmap string rule) : Prop :=
  h ⊆ acc.1
  /\ forall k : string,
       match acc.2 !! k with
       | Some l => is_Some (m !! k) /\ acc.1 !! l = m !! k
       | None => m !! k = None
       end.

(** What a resolution may do to the store: the table still holds the same
    references, and every object that existed still exists unchanged. *)
Definition preserves (st st' : state) : Prop :=
  IMAGE_SELECTORS st' = IMAGE_SELECTORS st /\ heap st ⊆ heap st'.

(** A computation that preserves the store from every state. *)
Definition stable {A} (m : M A) : Prop := forall st, preserves st (m st).1.

(** Unfolding the plumbing of [M]. *)
Ltac py_unfold :=
  unfold bind, ret, raise, reraise, try_except, emit, print.

(** ** Fixtures: a small world for the examples *)

Module Fixture.

(** The network location of the URLs of the examples: what lies between
    the scheme and the next slash. *)
Fixpoint upto_slash (s : string) : string :=
  match s with
  | EmptyString => EmptyString
  | String c s' => if Ascii.eqb c "/" then EmptyString else String c (upto_slash s')
  end.

Definition netloc (url : string) : string :=
  if startswith "http://" url then upto_slash (String.substring 7 (String.length url) url)
  else if startswith "https://" url then upto_slash (String.substring 8 (String.length url) url)
  else "".

(** A page is served as its own markup; the parser of the fixture knows
    three pages. *)
Definition og_page : list tag :=
  [ Tag "title" ∅;
    Tag "meta" {[ "property" := "og:title"; "content" := "A cat" ]};
    Tag "meta" {[ "property" := "og:image"; "content" := "http://cdn.example.com/cat.jpg" ]} ].

Definition bare_meta_page : list tag :=
  [ Tag "meta" {[ "property" := "og:image" ]} ].

Definition html_parser (markup : string) : list tag :=
  if String.eqb markup "og" then og_page
  else if String.eqb markup "bare" then bare_meta_page
  else [].

Definition unzip (body : string) : option (list string) :=
  if String.eqb body "PK" then Some ["1.jpg"; "2.jpg"] else None.

Definition session_get (url : string) : option response :=
  if String.eqb url "http://example.com/post/1" then Some (Response true url "og" "")
  else if String.eqb url "http://example.com/post/2" then Some (Response true url "bare" "")
  else if String.eqb url "http://example.com/post/3" then Some (Response true url "" "")
  else if String.eqb url "http://example.com/gone" then Some (Response false url "" "")
  else if String.eqb url "http://example.com/gone.jpg" then Some (Response false url "" "")
  else if String.eqb url "http://imgur.com/a/XYZ/zip" then Some (Response true url "" "PK")
  else if String.eqb url "http://imgur.com/a/broken/zip" then Some (Response true url "" "oops")
  else if String.eqb url "http://down.example.com/x" then None
  else Some (Response true url "" "bytes").

Definition w : world := World session_get netloc html_parser unzip (fun _ => true).

Definition link_post (url title : string) : post := Post url title false false false.

(** A configuration file that has a rule for one domain only, and one whose
    rule has no [link]. *)
Definition gfycat_only : gmap string rule :=
  {[ "gfycat.com" := {[ "name" := "video"; "class" := "gif"; "link" := "src" ]} ]}.

Definition no_link : gmap string rule :=
  {[ "example.com" := {[ "name" := "img"; "id" := "main" ]} ]}.

(** Posts of the examples. *)
Definition jpg_post : post := link_post "http://i.imgur.com/Cat.JPG" "cat".
Definition zip_png_post : post := link_post "http://example.com/zip/cat.png" "cat".
Definition album_post : post := link_post "http://imgur.com/a/XYZ" "album".
Definition album_jpg_post : post := link_post "http://imgur.com/a/pic.jpg" "pic".
Definition og_post : post := link_post "http://example.com/post/1" "og".
Definition bare_meta_post : post := link_post "http://example.com/post/2" "bare".
Definition empty_page_post : post := link_post "http://example.com/post/3" "empty".
Definition gone_post : post := link_post "http://example.com/gone" "gone".
Definition gone_jpg_post : post := link_post "http://example.com/gone.jpg" "gone picture".
Definition broken_album_post : post := link_post "http://imgur.com/a/broken" "broken".
Definition sticky_post : post := Post "http://i.imgur.com/Cat.JPG" "sticky" true false false.
Definition adult_post : post := Post "http://i.imgur.com/Cat.JPG" "adult" false false true.
Definition upper_gif_post : post := link_post "http://i.imgur.com/Cat.GIF" "loud cat".
Definition lower_gif_post : post := link_post "http://i.imgur.com/cat.gif" "quiet cat".

End Fixture.

(** ** Reading a trace *)

(** The test of [get_request] for a URL that comes with its protocol. *)
Definition has_scheme (url : string) : bool :=
  startswith_any ["http://"; "https://"] url.


(** A file written or an archive extracted: a call of [save_image] or of
    [extract_album] that returned. *)
Definition is_persist (e : event) : bool :=
  match e with WriteFile _ _ | ExtractAll _ _ => true | _ => false end.


(** A GET without protocol, or a printed line without the failure or the
    success prefix. *)
Definition is_malformed (e : event) : bool :=
  match e with
  | Get url => negb (has_scheme url)
  | Print line => negb (startswith "[-] " line || startswith "[+] " line)
  | _ => false
  end.

(** How many events of a list satisfy [f]. *)
Definition count (f : event -> bool) (d : list event) : nat :=
  length (List.filter f d).

(** [m] only appends to the trace, and what it appends has at most [n]
    events that satisfy [f]. *)
Definition spends {A} (f : event -> bool) (m : M A) (n : nat) : Prop :=
  forall st, exists d, trace (m st).1 = (trace st ++ d)%list /\ count f d <= n.


(** ** The bot: listings *)

(** The listing methods of a [praw] subreddit. *)
Inductive sorter : Type :=
  | by_hot | by_top | by_new | by_rising | by_controversial.

(** How [reddit.subreddits.search_by_name(sub, exact=True)] ends: it
    returns, it raises [NotFound], or it raises something else (the network,
    the credentials). *)
Inductive search_outcome : Type :=
  | Found
  | NotFound
  | SearchFails.

(** The platform client.  [listing sub m lim tf] is what the listing method
    [m] of [reddit.subreddit(sub)] yields when called with [limit=lim] and,
    when [tf] is given, [time_filter=tf]; [search_by_name sub] is how the
    search for [sub] ends. *)
Record reddit : Type := Reddit {
  listing : string -> sorter -> Z -> option string -> list post;
  search_by_name : string -> search_outcome
}.

(** [s[n:]] *)
Fixpoint slice_from (n : nat) (s : string) : string :=
  match n, s with
  | O, _ => s
  | S _, EmptyString => EmptyString
  | S n', String _ s' => slice_from n' s'
  end.

(** The dictionary [subreddit_sorter] of [get_subreddit_posts]. *)
Definition subreddit_sorter : gmap string sorter :=
  {[ "hot" := by_hot; "top" := by_top; "new" := by_new;
     "ris" := by_rising; "con" := by_controversial ]}.

(** [ImgBot.get_subreddit_posts] *)
Definition get_subreddit_posts (r : reddit) (sub sort : string) (lim : Z)
    : result (list post) :=
  if existsb (String.eqb sort) ["topyear"; "topmonth"; "topweek"; "topday"; "tophour"]
  then Ok (listing r sub by_top lim (Some (slice_from 3 sort)))
  else match subreddit_sorter !! sort with
       | Some m => Ok (listing r sub m lim None)
       | None => Raise (KeyError sort)
       end.

(** [ImgBot.validate_subreddit] *)
Definition validate_subreddit (r : reddit) (sub : string) : M bool :=
  match search_by_name r sub with
  | Found => ret true
  | NotFound => print ("[-] Subreddit " ++ sub ++ " does not exist.") ;;; ret false
  | SearchFails => raise PrawcoreException
  end.

(** [filter(self.validate_subreddit, sub)] of [ImgBot.download], as
    [Pool.map] consumes it: every name is validated, in order, and the names
    that pass are kept. *)
Fixpoint filter_validate (r : reddit) (subs : list string) : M (list string) :=
  match subs with
  | [] => ret []
  | sub :: subs' =>
      keep <- validate_subreddit r sub ;;
      rest <- filter_validate r subs' ;;
      ret (if keep then sub :: rest else rest)
  end.

(** The names for which the search returns, and those it does not find. *)
Definition is_found (r : reddit) (sub : string) : bool :=
  match search_by_name r sub with Found => true | _ => false end.

Definition is_missing (r : reddit) (sub : string) : bool :=
  match search_by_name r sub with NotFound => true | _ => false end.

Definition search_fails (r : reddit) (sub : string) : bool :=
  match search_by_name r sub with SearchFails => true | _ => false end.

(** The line of [validate_subreddit]. *)
Definition missing_line (sub : string) : event :=
  Print ("[-] Subreddit " ++ sub ++ " does not exist.").

(** The sort names that the docstring of [ImgBot.download] lists. *)
Definition documented_sorts : list string :=
  ["hot"; "top"; "new"; "ris"; "con";
   "topyear"; "topmonth"; "topweek"; "topday"; "tophour"].

(** A platform client for the examples. *)
Module FixtureBot.

Definition r : reddit :=
  Reddit (fun sub m lim tf =>
            match m, tf with
            | by_top, Some "week" => [Fixture.jpg_post]
            | by_hot, None => [Fixture.sticky_post; Fixture.album_post]
            | _, _ => []
            end)
         (fun sub => if String.eqb sub "pics" || String.eqb sub "aww" then Found
                     else if String.eqb sub "private" then SearchFails
                     else NotFound).

End FixtureBot.

(** * Properties *)

(** ** The string methods on examples *)

Example lower_ex : lower "http://I.Imgur.com/Cat.GIFV" = "http://i.imgur.com/cat.gifv".
Proof. reflexivity. Qed.

Example endswith_ex : endswith ".png" "a.png" = true /\ endswith ".png" "a.pngx" = false.
Proof. split; reflexivity. Qed.

Example contains_ex : contains "/a/" "http://imgur.com/a/XYZ" = true
                      /\ contains "/a/" "http://imgur.com/ab/" = false.
Proof. split; reflexivity. Qed.

Example basename_ex : basename "http://i.imgur.com/cat.jpg" = "cat.jpg"
                      /\ basename "cat.jpg" = "cat.jpg" /\ basename "a/b/" = "".
Proof. repeat split; reflexivity. Qed.

Example rule_for_builtin :
  rule_for builtin_state "imgur.com" = Ok imgur_rule
  /\ rule_for builtin_state "example.com" = Ok default_rule.
Proof. split; vm_compute; reflexivity. Qed.

(** ** Facts about substrings *)

Section Strings.

Lemma app_cons (c : ascii) (s t : string) : String c s ++ t = String c (s ++ t).
Proof. reflexivity. Qed.

Lemma app_empty_r (s : string) : s ++ "" = s.
Proof. induction s as [|c s IH]; [reflexivity |]. rewrite app_cons. congruence. Qed.

Lemma startswith_app (p s : string) : startswith p (p ++ s) = true.
Proof.
  unfold startswith. induction p as [|c p IH].
  - now destruct s.
  - rewrite app_cons. simpl. destruct (ascii_dec c c); [exact IH | congruence].
Qed.

Lemma contains_here (sub s : string) : startswith sub s = true -> contains sub s = true.
Proof. intros H. destruct s; simpl in *; rewrite H; reflexivity. Qed.

Lemma contains_app_r (sub s t : string) :
  contains sub t = true -> contains sub (s ++ t) = true.
Proof.
  intros H. induction s as [|c s IH]; [exact H |].
  rewrite app_cons. simpl. rewrite IH. apply orb_true_r.
Qed.

(** A string that has just been given the suffix [sub] contains [sub]. *)
Lemma contains_suffix (sub s : string) : contains sub (s ++ sub) = true.
Proof.
  apply contains_app_r, contains_here.
  rewrite <- (app_empty_r sub) at 2. apply startswith_app.
Qed.

Lemma endswith_refl (x : string) : endswith x x = true.
Proof. destruct x; simpl; [reflexivity |]. now rewrite Ascii.eqb_refl, String.eqb_refl. Qed.

Lemma endswith_app (x s : string) : endswith x (s ++ x) = true.
Proof.
  induction s as [|c s IH]; [apply endswith_refl |].
  rewrite app_cons. simpl. rewrite IH. apply orb_true_r.
Qed.

End Strings.

(** ** The resolver, one call at a time *)

Section Resolver.

Variable w : world.

(** [get_request] issues exactly one GET, on the URL with its scheme, and
    raises [ConnectionError] on a response that is not [ok]. *)
Lemma get_request_eq (url : string) (st : state) :
  get_request w url st =
  (log st (Get (with_scheme url)),
   match session_get w (with_scheme url) with
   | Some req => if ok req then Ok req else Raise ConnectionError
   | None => Raise RequestException
   end).
Proof.
  unfold get_request, session_get_call. py_unfold.
  destruct (session_get w (with_scheme url)) as [req|]; [|reflexivity].
  destruct (ok req); reflexivity.
Qed.

(** Every path through [get_direct_image_url]. *)
Lemma get_direct_image_url_eq (url : string) (st : state) :
  get_direct_image_url w url st =
  match session_get w (with_scheme url) with
  | None => (log st (Get (with_scheme url)), Raise RequestException)
  | Some req =>
      if negb (ok req) then (log st (Get (with_scheme url)), Raise ConnectionError)
      else
        match IMAGE_SELECTORS st !! "default" with
        | None => (log st (Get (with_scheme url)), Raise (KeyError "default"))
        | Some d =>
            let r : rule := heap st !!! default d (IMAGE_SELECTORS st !! netloc w url) in
            match r !! "link" with
            | None => (resolved_state url st r false, Raise (KeyError "link"))
            | Some link =>
                (resolved_state url st r true,
                 match List.find (matches (delete "link" r)) (html_parser w (text req)) with
                 | None => Raise AttributeError
                 | Some t => Ok (tag_attrs t !! link)
                 end)
            end
        end
  end.
Proof.
  unfold get_direct_image_url. unfold try_except at 1. unfold bind at 1.
  rewrite get_request_eq.
  destruct (session_get w (with_scheme url)) as [req|]; [|reflexivity].
  destruct (ok req); [|reflexivity]. simpl negb. cbv iota.
  unfold selectors_getitem, selectors_get, dict_copy, dict_pop, soup_find, deref, img_get.
  py_unfold. simpl.
  destruct (IMAGE_SELECTORS st !! "default") as [d|]; [|reflexivity]. simpl.
  rewrite lookup_total_insert_eq.
  set (r := heap st !!! default d (IMAGE_SELECTORS st !! netloc w url)).
  destruct (r !! "link") as [link|] eqn:Hlink; [|reflexivity]. simpl.
  rewrite lookup_total_insert_eq, insert_insert_eq.
  unfold resolved_state.
  destruct (List.find _ _); reflexivity.
Qed.

Lemma get_request_trace (url : string) (st : state) :
  trace (get_request w url st).1 = (trace st ++ [Get (with_scheme url)])%list.
Proof. rewrite get_request_eq. reflexivity. Qed.

Lemma get_direct_image_url_trace (url : string) (st : state) :
  trace (get_direct_image_url w url st).1 = (trace st ++ [Get (with_scheme url)])%list.
Proof.
  rewrite get_direct_image_url_eq.
  destruct (session_get w (with_scheme url)) as [req|]; [|reflexivity].
  destruct (ok req); simpl; [|reflexivity].
  destruct (IMAGE_SELECTORS st !! "default") as [d|]; [|reflexivity].
  cbv zeta. destruct (_ !! "link"); reflexivity.
Qed.

(** The three branches of [get_post_image_url]. *)
Lemma get_post_image_url_direct (p : post) (st : state) :
  endswith_any IMAGE_FORMATS (lower (post_url p)) = true ->
  get_post_image_url w p st = (st, Ok (Some (post_url p))).
Proof. intros H. unfold get_post_image_url. rewrite H. reflexivity. Qed.

Lemma get_post_image_url_album (p : post) (st : state) :
  endswith_any IMAGE_FORMATS (lower (post_url p)) = false ->
  contains "/a/" (post_url p) = true ->
  get_post_image_url w p st = (st, Ok (Some (post_url p ++ "/zip"))).
Proof. intros H1 H2. unfold get_post_image_url. rewrite H1, H2. reflexivity. Qed.

Lemma get_post_image_url_page (p : post) (st : state) :
  endswith_any IMAGE_FORMATS (lower (post_url p)) = false ->
  contains "/a/" (post_url p) = false ->
  get_post_image_url w p st = get_direct_image_url w (post_url p) st.
Proof.
  intros H1 H2. unfold get_post_image_url. rewrite H1, H2.
  unfold try_except, reraise, raise.
  destruct (get_direct_image_url w (post_url p) st) as [st' [v|e]]; [reflexivity|].
  destruct e; reflexivity.
Qed.

End Resolver.

(** ** The filter and the router, one post at a time *)

Section Router.

Variable w : world.
Variables albums gifs nsfw : bool.
Variable path : string.

Lemma ignore_post_eq (url title : string) (st : state) :
  ignore_post (Some url) albums gifs title st =
  if contains "/zip" url && negb albums
  then (log st (Print ("[-] Ignoring album: " ++ title)), Ok true)
  else if endswith_any [".gif"; ".gifv"] url && negb gifs
       then (log st (Print ("[-] Ignoring gif: " ++ title)), Ok true)
       else (st, Ok false).
Proof.
  unfold ignore_post.
  destruct (contains "/zip" url && negb albums); [reflexivity|].
  destruct (endswith_any [".gif"; ".gifv"] url && negb gifs); reflexivity.
Qed.

(** The filter never fails on a string and never answers without having
    left the state alone or logged one line. *)
Lemma ignore_post_false (url title : string) (st st' : state) :
  ignore_post (Some url) albums gifs title st = (st', Ok false) -> st' = st.
Proof.
  rewrite ignore_post_eq.
  repeat match goal with |- context [if ?b then _ else _] => destruct b end;
    congruence.
Qed.

Lemma route_posts_cons (p : post) (posts : list post) (st : state) :
  route_posts w (p :: posts) albums gifs nsfw path st =
  match route_post w albums gifs nsfw path p st with
  | (st', Ok _) => route_posts w posts albums gifs nsfw path st'
  | (st', Raise e) => (st', Raise e)
  end.
Proof. reflexivity. Qed.

(** A post that the opening test rejects leaves no trace at all. *)
Lemma route_post_skipped (p : post) (st : state) :
  skip_before_resolve p nsfw = true ->
  route_post w albums gifs nsfw path p st = (st, Ok tt).
Proof. intros H. unfold route_post. rewrite H. reflexivity. Qed.

(** An exception of the resolver: two classes have a handler clause, the
    others go through. *)
Lemma route_post_resolve_raises (p : post) (st st' : state) (e : exn) :
  skip_before_resolve p nsfw = false ->
  get_post_image_url w p st = (st', Raise e) ->
  route_post w albums gifs nsfw path p st =
  match e with
  | ConnectionError =>
      (log st' (Print ("[-] Encountered bad url: " ++ post_url p)), Ok tt)
  | AttributeError =>
      (log st' (Print ("[-] Could not extract link from " ++ post_url p)), Ok tt)
  | _ => (st', Raise e)
  end.
Proof.
  intros Hskip Hres. unfold route_post. rewrite Hskip.
  unfold bind at 1. unfold try_except at 1. unfold bind at 1.
  rewrite Hres. destruct e; reflexivity.
Qed.

(** The resolver answered: the filter decides, on what it was given. *)
Lemma route_post_resolved (p : post) (st st1 : state) (url : option string) :
  skip_before_resolve p nsfw = false ->
  get_post_image_url w p st = (st1, Ok url) ->
  route_post w albums gifs nsfw path p st =
  match ignore_post url albums gifs (post_title p) st1 with
  | (st2, Raise e) => (st2, Raise e)
  | (st2, Ok true) => (st2, Ok tt)
  | (st2, Ok false) =>
      match url with
      | None => (st2, Raise AttributeError)
      | Some url =>
          match session_get w (with_scheme url) with
          | None => (log st2 (Get (with_scheme url)), Raise RequestException)
          | Some req =>
              if ok req then
                ((if contains "/zip" url then extract_album w req path
                  else save_image w req path) ;;;
                 print ("[+] Downloaded " ++ post_title p))
                  (log st2 (Get (with_scheme url)))
              else
                (log (log st2 (Get (with_scheme url)))
                     (Print ("[-] Encountered bad url: " ++ url)), Ok tt)
          end
      end
  end.
Proof.
  intros Hskip Hres. unfold route_post. rewrite Hskip.
  unfold bind at 1. unfold try_except at 1. unfold bind at 1.
  rewrite Hres. unfold ret at 1. cbv iota beta.
  unfold bind at 1.
  destruct (ignore_post url albums gifs (post_title p) st1) as [st2 [[|]|e]];
    [reflexivity | | reflexivity].
  destruct url as [url|]; [|reflexivity].
  unfold bind at 1. unfold try_except at 1. unfold bind at 1.
  change (negb false) with true. cbv iota beta.
  rewrite get_request_eq.
  destruct (session_get w (with_scheme url)) as [req|]; [|reflexivity].
  destruct (ok req); reflexivity.
Qed.

End Router.

(** ** Direct images and albums (C1, C2) *)

Section DirectAndAlbum.

Variable w : world.

(** The router and the filter read the kind off the URL. *)
Lemma persist_by_kind (url : string) (req : response) (path : string) :
  (if contains "/zip" url then extract_album w req path else save_image w req path) =
  match kind_of url with
  | album_archive => extract_album w req path
  | single_image => save_image w req path
  end.
Proof. unfold kind_of. destruct (contains "/zip" url); reflexivity. Qed.

Lemma album_rule_by_kind (url title : string) (gifs : bool) (st : state) :
  ignore_post (Some url) false gifs title st =
  match kind_of url with
  | album_archive => (log st (Print ("[-] Ignoring album: " ++ title)), Ok true)
  | single_image => ignore_post (Some url) true gifs title st
  end.
Proof.
  rewrite !ignore_post_eq. unfold kind_of.
  destruct (contains "/zip" url); reflexivity.
Qed.

(** Where the URL of a direct image has no [/zip] in it, the router takes
    it for a single image whatever [albums] is: it is fetched and handed to
    [save_image]. *)
Lemma direct_image_post_saved (albums gifs nsfw : bool) (path : string) (p : post)
    (st : state) (req : response) :
  skip_before_resolve p nsfw = false ->
  endswith_any IMAGE_FORMATS (lower (post_url p)) = true ->
  contains "/zip" (post_url p) = false ->
  endswith_any [".gif"; ".gifv"] (post_url p) = false \/ gifs = true ->
  session_get w (with_scheme (post_url p)) = Some req -> ok req = true ->
  route_post w albums gifs nsfw path p st
  = (save_image w req path ;;; print ("[+] Downloaded " ++ post_title p))
      (log st (Get (with_scheme (post_url p)))).
Proof.
  intros Hskip Hext Hzip Hgif Hget Hok.
  rewrite (route_post_resolved w albums gifs nsfw path p st _ _ Hskip
             (get_post_image_url_direct w p st Hext)).
  rewrite ignore_post_eq, Hzip. cbn [andb].
  assert (endswith_any [".gif"; ".gifv"] (post_url p) && negb gifs = false) as ->
    by (destruct Hgif as [-> | ->]; [reflexivity | apply andb_false_r]).
  now rewrite Hget, Hok.
Qed.

(** C2 (amended).  For every URL that contains [/a/] and whose lower-cased
    form does not end in a direct-image extension, [get_post_image_url]
    returns the URL followed by [/zip], an album archive, and leaves the
    state as it was, so that no GET is issued. *)
Theorem album_url_resolved (p : post) (st : state) :
  contains "/a/" (post_url p) = true ->
  endswith_any IMAGE_FORMATS (lower (post_url p)) = false ->
  get_post_image_url w p st = (st, Ok (Some (post_url p ++ "/zip")))
  /\ kind_of (post_url p ++ "/zip") = album_archive.
Proof.
  intros Ha Hext. split; [now apply get_post_image_url_album |].
  unfold kind_of. now rewrite contains_suffix.
Qed.

End DirectAndAlbum.

(** C1 (code bug).  The URL of the post ends in [.png], so the resolver
    returns it unchanged and without a GET, as a direct image.  It also has
    [/zip] in it, and the filter and the router tell an album from an image
    by that substring alone: with albums off the picture is skipped as an
    album, and with albums on its body is handed to [extract_album], which
    raises [BadZipFile] and ends the run. *)
Theorem direct_image_with_zip_routed_as_album :
  endswith_any IMAGE_FORMATS (lower (post_url Fixture.zip_png_post)) = true
  /\ get_post_image_url Fixture.w Fixture.zip_png_post builtin_state
     = (builtin_state, Ok (Some "http://example.com/zip/cat.png"))
  /\ kind_of "http://example.com/zip/cat.png" = album_archive
  /\ route_posts Fixture.w [Fixture.zip_png_post] false true false "pics" builtin_state
     = (log builtin_state (Print "[-] Ignoring album: cat"), Ok tt)
  /\ route_posts Fixture.w [Fixture.zip_png_post; Fixture.jpg_post] true true false "pics"
       builtin_state
     = (log builtin_state (Get "http://example.com/zip/cat.png"), Raise BadZipFile).
Proof. repeat split; vm_compute; reflexivity. Qed.

(** The same picture under a URL without [/zip] is saved. *)
Example direct_image_saved_ex :
  route_posts Fixture.w [Fixture.jpg_post] false true false "pics" builtin_state
  = (State (heap builtin_state) (IMAGE_SELECTORS builtin_state)
       [ Get "http://i.imgur.com/Cat.JPG";
         WriteFile "pics/Cat.JPG" "bytes";
         Print "[+] Downloaded cat" ],
     Ok tt).
Proof. vm_compute; reflexivity. Qed.

Lemma album_url_resolved_witness :
  contains "/a/" (post_url Fixture.album_post) = true
  /\ endswith_any IMAGE_FORMATS (lower (post_url Fixture.album_post)) = false
  /\ get_post_image_url Fixture.w Fixture.album_post builtin_state
     = (builtin_state, Ok (Some "http://imgur.com/a/XYZ/zip"))
  /\ kind_of "http://imgur.com/a/XYZ/zip" = album_archive.
Proof.
  assert (Ha : contains "/a/" (post_url Fixture.album_post) = true) by reflexivity.
  assert (He : endswith_any IMAGE_FORMATS (lower (post_url Fixture.album_post)) = false)
    by reflexivity.
  split; [exact Ha |]. split; [exact He |].
  exact (album_url_resolved Fixture.w Fixture.album_post builtin_state Ha He).
Defined.

(** C2, as stated, fails on a URL that contains [/a/] and ends in a
    direct-image extension: the first branch returns it unchanged. *)
Lemma album_marker_counterexample :
  contains "/a/" (post_url Fixture.album_jpg_post) = true
  /\ get_post_image_url Fixture.w Fixture.album_jpg_post builtin_state
     = (builtin_state, Ok (Some "http://imgur.com/a/pic.jpg"))
  /\ get_post_image_url Fixture.w Fixture.album_jpg_post builtin_state
     <> (builtin_state, Ok (Some ("http://imgur.com/a/pic.jpg" ++ "/zip")))
  /\ kind_of "http://imgur.com/a/pic.jpg" = single_image.
Proof. repeat split; try reflexivity. discriminate. Qed.

(** ** Building the selector table (C8) *)

Section SelectorTable.

Lemma json_load_spec (selectors : gmap string rule) (h : gmap ref rule) :
  json_load_inv h (json_load selectors h) selectors.
Proof.
  unfold json_load.
  apply (map_fold_weak_ind (json_load_inv h)).
  - split; [reflexivity |]. intros k. simpl. now rewrite !lookup_empty.
  - intros i x m [h' refs] Hi [Hsub Hrefs]. simpl in *.
    assert (Hfresh : h' !! fresh (dom h') = None)
      by (apply not_elem_of_dom, is_fresh).
    split; simpl.
    + etransitivity; [exact Hsub |]. now apply insert_subseteq.
    + intros k. destruct (decide (i = k)) as [->|Hne].
      * rewrite !lookup_insert_eq. split; [eauto |]. reflexivity.
      * rewrite !lookup_insert_ne by done. specialize (Hrefs k).
        destruct (refs !! k) as [l|]; [|exact Hrefs].
        destruct Hrefs as [[y Hy] Hl]. split; [eauto |].
        rewrite lookup_insert_ne; [exact Hl |].
        intros <-. rewrite Hfresh, Hy in Hl. discriminate.
Qed.

Lemma builtin_wf : table_wf builtin_state.
Proof.
  unfold table_wf, builtin_state. cbn [heap IMAGE_SELECTORS].
  intros k l Hl.
  repeat (apply lookup_insert_Some in Hl as [[_ <-]|[_ Hl]];
          [apply elem_of_dom; vm_compute; eauto |]).
  apply lookup_singleton_Some in Hl as [_ <-].
  apply elem_of_dom; vm_compute; eauto.
Qed.

(** [rule_for] reads the table through its references. *)
Lemma rule_for_view (st : state) (domain : string) :
  rule_for st domain =
  match table_view st !! "default" with
  | None => Raise (KeyError "default")
  | Some d => Ok (default d (table_view st !! domain))
  end.
Proof.
  unfold rule_for, table_view, selectors_getitem, selectors_get, deref. py_unfold.
  rewrite !lookup_fmap.
  destruct (IMAGE_SELECTORS st !! "default") as [d|]; simpl; [|reflexivity].
  destruct (IMAGE_SELECTORS st !! domain); reflexivity.
Qed.

(** The table after the merge, key by key: an item of the file is there as
    the file has it, every other key has what the literal gave it. *)
Lemma table_view_load (selectors : gmap string rule) (domain : string) :
  table_view (load_selectors (Selectors selectors)) !! domain =
  match selectors !! domain with
  | Some r => Some r
  | None => table_view builtin_state !! domain
  end.
Proof.
  unfold load_selectors.
  pose proof (json_load_spec selectors (heap builtin_state)) as [Hsub Hrefs].
  pose proof builtin_wf as Hwf. unfold table_wf in Hwf.
  destruct (json_load selectors (heap builtin_state)) as [h refs].
  unfold table_view. cbn [heap IMAGE_SELECTORS fst snd] in *.
  rewrite !lookup_fmap, lookup_union.
  specialize (Hrefs domain).
  destruct (refs !! domain) as [l|].
  - destruct Hrefs as [[r Hr] Hl]. rewrite Hr in *.
    rewrite union_Some_l. simpl. f_equal.
    now apply lookup_total_correct.
  - rewrite Hrefs, (left_id_L None _).
    destruct (IMAGE_SELECTORS builtin_state !! domain) as [l|] eqn:Hl; [|reflexivity].
    simpl. f_equal.
    apply Hwf, elem_of_dom in Hl as [r Hr].
    rewrite (lookup_total_correct _ _ _ Hr).
    apply lookup_total_correct. eapply lookup_weaken; eauto.
Qed.

(** C8.  The merge is key-wise.  For every configuration object whose keys do
    not include [imgur.com], the rule read for [imgur.com] after the merge
    is the built-in one; and for every domain, the table has the rule of the
    file when the file has that key and the built-in entry otherwise. *)
Theorem merge_is_keywise (selectors : gmap string rule) :
  selectors !! "imgur.com" = None ->
  rule_for (load_selectors (Selectors selectors)) "imgur.com" = Ok imgur_rule
  /\ forall domain : string,
       table_view (load_selectors (Selectors selectors)) !! domain =
       match selectors !! domain with
       | Some r => Some r
       | None => table_view builtin_state !! domain
       end.
Proof.
  intros Himgur. split; [|apply table_view_load].
  rewrite rule_for_view, !table_view_load, Himgur.
  destruct (selectors !! "default"); reflexivity.
Qed.

End SelectorTable.

Lemma merge_is_keywise_witness :
  Fixture.gfycat_only !! "imgur.com" = None
  /\ rule_for (load_selectors (Selectors Fixture.gfycat_only)) "imgur.com" = Ok imgur_rule
  /\ table_view (load_selectors (Selectors Fixture.gfycat_only)) !! "gfycat.com"
     = Some {[ "name" := "video"; "class" := "gif"; "link" := "src" ]}.
Proof.
  assert (H : Fixture.gfycat_only !! "imgur.com" = None) by reflexivity.
  split; [exact H |].
  destruct (merge_is_keywise Fixture.gfycat_only H) as [Himgur Hkeys].
  split; [exact Himgur |].
  rewrite (Hkeys "gfycat.com"). reflexivity.
Defined.

Example load_gfycat_only :
  rule_for (load_selectors (Selectors Fixture.gfycat_only)) "gfycat.com"
  = Ok {[ "name" := "video"; "class" := "gif"; "link" := "src" ]}
  /\ rule_for (load_selectors (Selectors Fixture.gfycat_only)) "tinypic.com" = Ok tinypic_rule
  /\ rule_for (load_selectors Undecodable) "gfycat.com" = Ok gfycat_rule
  /\ trace (load_selectors Undecodable)
     = [Print "[-] Failed to decode selectors.json. Check formatting."].
Proof. repeat split; vm_compute; reflexivity. Qed.

(** ** The table during a run (C9) *)

Section ReadOnly.

Variable w : world.

Lemma preserves_refl (st : state) : preserves st st.
Proof. split; reflexivity. Qed.

Lemma preserves_trans (st1 st2 st3 : state) :
  preserves st1 st2 -> preserves st2 st3 -> preserves st1 st3.
Proof.
  intros [Ht1 Hh1] [Ht2 Hh2]. split; [congruence |].
  etransitivity; eassumption.
Qed.

Lemma preserves_log (st : state) (e : event) : preserves st (log st e).
Proof. split; reflexivity. Qed.

(** The copy lives at an address that no object had, so that writing to it,
    once or twice, leaves every earlier object alone. *)
Lemma preserves_resolved_state (url : string) (st : state) (r : rule) (popped : bool) :
  preserves st (resolved_state url st r popped).
Proof.
  split; [reflexivity |]. simpl.
  apply insert_subseteq, not_elem_of_dom, is_fresh.
Qed.

Lemma stable_ret {A} (a : A) : stable (ret a).
Proof. intros st. apply preserves_refl. Qed.

Lemma stable_raise {A} (e : exn) : stable (@raise A e).
Proof. intros st. apply preserves_refl. Qed.

Lemma stable_emit (e : event) : stable (emit e).
Proof. intros st. apply preserves_log. Qed.

Lemma stable_bind {A B} (m : M A) (k : A -> M B) :
  stable m -> (forall a, stable (k a)) -> stable (bind m k).
Proof.
  intros Hm Hk st. unfold bind. specialize (Hm st).
  destruct (m st) as [st' [a|e]]; simpl in *; [|exact Hm].
  eapply preserves_trans; [exact Hm | apply Hk].
Qed.

Lemma stable_try_except {A} (m : M A) (h : exn -> option (M A)) :
  stable m -> (forall e k, h e = Some k -> stable k) -> stable (try_except m h).
Proof.
  intros Hm Hh st. unfold try_except. specialize (Hm st).
  destruct (m st) as [st' [a|e]]; simpl in *; [exact Hm |].
  destruct (h e) as [k|] eqn:He; [|exact Hm].
  eapply preserves_trans; [exact Hm | eapply Hh, He].
Qed.

Lemma stable_get_request (url : string) : stable (get_request w url).
Proof. intros st. rewrite get_request_eq. apply preserves_log. Qed.

Lemma stable_get_direct_image_url (url : string) : stable (get_direct_image_url w url).
Proof.
  intros st. rewrite get_direct_image_url_eq.
  destruct (session_get w (with_scheme url)) as [req|]; [|apply preserves_log].
  destruct (ok req); simpl; [|apply preserves_log].
  destruct (IMAGE_SELECTORS st !! "default") as [d|]; [|apply preserves_log].
  cbv zeta. destruct (_ !! "link"); apply preserves_resolved_state.
Qed.

Lemma stable_get_post_image_url (p : post) : stable (get_post_image_url w p).
Proof.
  unfold get_post_image_url.
  destruct (endswith_any IMAGE_FORMATS (lower (post_url p))); [apply stable_ret |].
  destruct (contains "/a/" (post_url p)); [apply stable_ret |].
  apply stable_try_except; [apply stable_get_direct_image_url |].
  intros e k He. destruct e; inversion He; apply stable_raise.
Qed.

Lemma stable_ignore_post (url : option string) (albums gifs : bool) (title : string) :
  stable (ignore_post url albums gifs title).
Proof.
  destruct url as [url|]; [|apply stable_raise].
  intros st. rewrite ignore_post_eq.
  repeat match goal with |- context [if ?b then _ else _] => destruct b end;
    (apply preserves_log || apply preserves_refl).
Qed.

Lemma stable_save_image (req : response) (path : string) : stable (save_image w req path).
Proof.
  unfold save_image. destruct (open_wb w _); [apply stable_emit | apply stable_raise].
Qed.

Lemma stable_extract_album (req : response) (path : string) :
  stable (extract_album w req path).
Proof.
  unfold extract_album. destruct (unzip w _); [apply stable_emit | apply stable_raise].
Qed.

Lemma stable_route_post (albums gifs nsfw : bool) (path : string) (p : post) :
  stable (route_post w albums gifs nsfw path p).
Proof.
  unfold route_post. destruct (skip_before_resolve p nsfw); [apply stable_ret |].
  apply stable_bind.
  { apply stable_try_except.
    - apply stable_bind; [apply stable_get_post_image_url | intros; apply stable_ret].
    - intros e k He.
      destruct e; inversion He;
        (apply stable_bind; [apply stable_emit | intros; apply stable_ret]). }
  intros [|url]; [apply stable_ret |].
  apply stable_bind; [apply stable_ignore_post |].
  intros [|]; simpl; [apply stable_ret |].
  destruct url as [url|]; [|apply stable_raise].
  apply stable_bind.
  { apply stable_try_except.
    - apply stable_bind; [apply stable_get_request | intros; apply stable_ret].
    - intros e k He.
      destruct e; inversion He;
        (apply stable_bind; [apply stable_emit | intros; apply stable_ret]). }
  intros [|req]; [apply stable_ret |].
  apply stable_bind; [|intros; apply stable_emit].
  destruct (contains "/zip" url); [apply stable_extract_album | apply stable_save_image].
Qed.

Lemma stable_route_posts (posts : list post) (albums gifs nsfw : bool) (path : string) :
  stable (route_posts w posts albums gifs nsfw path).
Proof.
  induction posts as [|p posts IH]; simpl; [apply stable_ret |].
  apply stable_bind; [apply stable_route_post | intros _; exact IH].
Qed.

(** With references that all point somewhere, what [preserves] keeps is the
    table as resolution reads it. *)
Lemma preserves_table_view (st st' : state) :
  table_wf st -> preserves st st' -> table_view st' = table_view st.
Proof.
  intros Hwf [Htab Hheap]. unfold table_view. rewrite Htab.
  apply map_eq. intros k. rewrite !lookup_fmap.
  destruct (IMAGE_SELECTORS st !! k) as [l|] eqn:Hl; [|reflexivity].
  simpl. f_equal.
  apply Hwf, elem_of_dom in Hl as [r Hr].
  rewrite (lookup_total_correct _ _ _ Hr).
  apply lookup_total_correct. eapply lookup_weaken; eauto.
Qed.

(** C9.  The selector table is read-only after initialisation.  Whatever a
    call of [get_direct_image_url], or a whole run of [route_posts] over any
    number of posts, does, the table holds the same references afterwards
    and every rule object that existed is unchanged: [link] is popped from a
    copy.  When the references of the table point to allocated objects, as
    they do after the module has been loaded, the rules of the table read
    as they did at startup. *)
Theorem selector_table_read_only (posts : list post) (albums gifs nsfw : bool)
    (path url : string) (st : state) :
  preserves st (get_direct_image_url w url st).1
  /\ preserves st (route_posts w posts albums gifs nsfw path st).1
  /\ (table_wf st ->
      table_view (get_direct_image_url w url st).1 = table_view st
      /\ table_view (route_posts w posts albums gifs nsfw path st).1 = table_view st).
Proof.
  pose proof (stable_get_direct_image_url url st) as H1.
  pose proof (stable_route_posts posts albums gifs nsfw path st) as H2.
  split; [exact H1 |]. split; [exact H2 |].
  intros Hwf. split; now apply preserves_table_view.
Qed.

End ReadOnly.

Lemma load_selectors_wf (f : selectors_file) : table_wf (load_selectors f).
Proof.
  destruct f as [| | |selectors]; try exact builtin_wf.
  unfold load_selectors.
  pose proof (json_load_spec selectors (heap builtin_state)) as [Hsub Hrefs].
  pose proof builtin_wf as Hwf. unfold table_wf in *.
  destruct (json_load selectors (heap builtin_state)) as [h refs].
  cbn [heap IMAGE_SELECTORS fst snd] in *.
  intros k l Hl. apply lookup_union_Some_raw in Hl as [Hl|[_ Hl]].
  - specialize (Hrefs k). rewrite Hl in Hrefs. destruct Hrefs as [[r Hr] Hh].
    apply elem_of_dom. rewrite Hh, Hr. eauto.
  - apply Hwf, elem_of_dom in Hl as [r Hr].
    apply elem_of_dom. exists r. eapply lookup_weaken; eauto.
Qed.

Lemma selector_table_read_only_witness :
  table_wf builtin_state
  /\ table_view (route_posts Fixture.w [Fixture.og_post; Fixture.album_post] true true false
                   "pics" builtin_state).1
     = table_view builtin_state
  /\ (heap (route_posts Fixture.w [Fixture.og_post; Fixture.album_post] true true false
              "pics" builtin_state).1 : gmap ref rule) !! 4
     = Some (delete "link" default_rule).
Proof.
  split; [exact builtin_wf |].
  split; [|vm_compute; reflexivity].
  exact (proj2 (proj2 (proj2 (selector_table_read_only Fixture.w
    [Fixture.og_post; Fixture.album_post] true true false "pics" "" builtin_state))
    builtin_wf)).
Defined.

(** Without the copy the model does see the table change: popping [link]
    from the object that the table refers to alters the default rule. *)
Example pop_without_copy_mutates :
  table_view (dict_pop 0 "link" builtin_state).1 !! "default"
  = Some (delete "link" default_rule)
  /\ table_view builtin_state !! "default" = Some default_rule.
Proof. split; vm_compute; reflexivity. Qed.

(** ** Pages (C3, C5) *)

Section Pages.

Variable w : world.

Lemma rule_for_Ok (st : state) (domain : string) (r : rule) :
  rule_for st domain = Ok r ->
  exists d, IMAGE_SELECTORS st !! "default" = Some d
            /\ heap st !!! default d (IMAGE_SELECTORS st !! domain) = r.
Proof.
  unfold rule_for, selectors_getitem, selectors_get, deref. py_unfold.
  destruct (IMAGE_SELECTORS st !! "default") as [d|]; simpl; [|discriminate].
  intros [= <-]. eauto.
Qed.

(** A page that was fetched, under a rule with a [link]: the first matching
    element decides.  No such element is an [AttributeError]; an element
    gives the value of the attribute, and [None] when it has none. *)
Lemma get_direct_image_url_fetched (url : string) (st : state) (req : response)
    (r : rule) (link : string) :
  session_get w (with_scheme url) = Some req -> ok req = true ->
  rule_for st (netloc w url) = Ok r ->
  r !! "link" = Some link ->
  get_direct_image_url w url st =
  (resolved_state url st r true,
   match List.find (matches (delete "link" r)) (html_parser w (text req)) with
   | None => Raise AttributeError
   | Some t => Ok (tag_attrs t !! link)
   end).
Proof.
  intros Hget Hok Hrule Hlink. apply rule_for_Ok in Hrule as (d & Hd & Hr).
  rewrite get_direct_image_url_eq, Hget, Hok, Hd. simpl. rewrite Hr, Hlink.
  reflexivity.
Qed.

(** The same page under a rule without [link]: [pop] raises [KeyError]. *)
Lemma get_direct_image_url_no_link (url : string) (st : state) (req : response) (r : rule) :
  session_get w (with_scheme url) = Some req -> ok req = true ->
  rule_for st (netloc w url) = Ok r ->
  r !! "link" = None ->
  get_direct_image_url w url st = (resolved_state url st r false, Raise (KeyError "link")).
Proof.
  intros Hget Hok Hrule Hlink. apply rule_for_Ok in Hrule as (d & Hd & Hr).
  rewrite get_direct_image_url_eq, Hget, Hok, Hd. simpl. rewrite Hr, Hlink.
  reflexivity.
Qed.

Lemma rule_for_load (selectors : gmap string rule) (domain : string) (r : rule) :
  selectors !! domain = Some r ->
  rule_for (load_selectors (Selectors selectors)) domain = Ok r.
Proof.
  intros Hr. rewrite rule_for_view, !table_view_load, Hr.
  destruct (selectors !! "default"); reflexivity.
Qed.

(** C5 (amended).  A rule without a link attribute is accepted when the
    table is loaded.  Resolving a page URL of its domain raises
    [KeyError] when the rule is used, after the page has been fetched; no
    handler of [get_post_image_url] or [route_posts] catches it, so it
    leaves [route_posts] and the posts after it are not handled. *)
Theorem rule_without_link_raises_KeyError (albums gifs nsfw : bool) (path : string)
    (p : post) (posts : list post) (st : state) (req : response) (r : rule) :
  skip_before_resolve p nsfw = false ->
  endswith_any IMAGE_FORMATS (lower (post_url p)) = false ->
  contains "/a/" (post_url p) = false ->
  session_get w (with_scheme (post_url p)) = Some req -> ok req = true ->
  rule_for st (netloc w (post_url p)) = Ok r ->
  r !! "link" = None ->
  (forall selectors : gmap string rule,
     selectors !! netloc w (post_url p) = Some r ->
     rule_for (load_selectors (Selectors selectors)) (netloc w (post_url p)) = Ok r)
  /\ get_post_image_url w p st
     = (resolved_state (post_url p) st r false, Raise (KeyError "link"))
  /\ route_posts w (p :: posts) albums gifs nsfw path st
     = (resolved_state (post_url p) st r false, Raise (KeyError "link")).
Proof.
  intros Hskip Hext Halbum Hget Hok Hrule Hlink.
  assert (Hres : get_post_image_url w p st
                 = (resolved_state (post_url p) st r false, Raise (KeyError "link"))).
  { rewrite get_post_image_url_page by assumption.
    eapply get_direct_image_url_no_link; eassumption. }
  split; [intros selectors; apply rule_for_load |].
  split; [exact Hres |].
  rewrite route_posts_cons.
  now rewrite (route_post_resolve_raises w albums gifs nsfw path p st _ _ Hskip Hres).
Qed.

End Pages.

(** C3 (code bug).  The page of the post has an element that matches the
    default rule and lacks the [content] attribute.  The resolver does not
    fail: [img.get(link)] answers [None], which [get_post_image_url] returns;
    the filter then raises [TypeError] on it, and the run ends before the
    next post. *)
Theorem missing_attribute_returns_None :
  List.find (matches (delete "link" default_rule))
            (html_parser Fixture.w "bare") = Some (Tag "meta" {[ "property" := "og:image" ]})
  /\ get_post_image_url Fixture.w Fixture.bare_meta_post builtin_state
     = (resolved_state "http://example.com/post/2" builtin_state default_rule true, Ok None)
  /\ route_posts Fixture.w [Fixture.bare_meta_post; Fixture.jpg_post] true true false "pics"
       builtin_state
     = (resolved_state "http://example.com/post/2" builtin_state default_rule true,
        Raise TypeError).
Proof. repeat split; vm_compute; reflexivity. Qed.

(** The two outcomes that C3 has right, on the fixture: no matching element
    is an [AttributeError], a matching element with the attribute gives its
    value. *)
Example page_outcomes :
  snd (get_post_image_url Fixture.w Fixture.empty_page_post builtin_state)
  = Raise AttributeError
  /\ snd (get_post_image_url Fixture.w Fixture.og_post builtin_state)
     = Ok (Some "http://cdn.example.com/cat.jpg").
Proof. split; vm_compute; reflexivity. Qed.

Lemma rule_without_link_raises_KeyError_witness :
  skip_before_resolve Fixture.og_post false = false
  /\ rule_for (load_selectors (Selectors Fixture.no_link)) "example.com"
     = Ok {[ "name" := "img"; "id" := "main" ]}
  /\ route_posts Fixture.w [Fixture.og_post; Fixture.jpg_post] true true false "pics"
       (load_selectors (Selectors Fixture.no_link))
     = (resolved_state "http://example.com/post/1" (load_selectors (Selectors Fixture.no_link))
          {[ "name" := "img"; "id" := "main" ]} false,
        Raise (KeyError "link")).
Proof.
  assert (Hrule : rule_for (load_selectors (Selectors Fixture.no_link))
                    (netloc Fixture.w (post_url Fixture.og_post))
                  = Ok {[ "name" := "img"; "id" := "main" ]})
    by (vm_compute; reflexivity).
  split; [reflexivity |]. split; [exact Hrule |].
  refine (proj2 (proj2 (rule_without_link_raises_KeyError Fixture.w true true false "pics"
    Fixture.og_post [Fixture.jpg_post] (load_selectors (Selectors Fixture.no_link))
    (Response true "http://example.com/post/1" "og" "") _ _ _ _ _ _ Hrule _)));
    reflexivity.
Defined.

(** C5, as stated, fails: with a rule without [link] for the domain of the
    first post, the run ends on [KeyError] at that post.  Nothing is logged
    for it and the second post is never handled. *)
Lemma rule_without_link_counterexample :
  snd (route_posts Fixture.w [Fixture.og_post; Fixture.jpg_post] true true false "pics"
         (load_selectors (Selectors Fixture.no_link))) = Raise (KeyError "link")
  /\ trace (route_posts Fixture.w [Fixture.og_post; Fixture.jpg_post] true true false "pics"
              (load_selectors (Selectors Fixture.no_link))).1
     = [Get "http://example.com/post/1"].
Proof. split; vm_compute; reflexivity. Qed.

(** ** Errors at the post boundary (C4) *)

Section Errors.

Variable w : world.
Variables albums gifs nsfw : bool.
Variable path : string.

(** A post that ends without an exception hands the run to the next one. *)
Lemma route_posts_continue (p : post) (posts : list post) (st st' : state) :
  route_post w albums gifs nsfw path p st = (st', Ok tt) ->
  route_posts w (p :: posts) albums gifs nsfw path st
  = route_posts w posts albums gifs nsfw path st'.
Proof. intros H. rewrite route_posts_cons, H. reflexivity. Qed.

Lemma route_posts_raise (p : post) (posts : list post) (st st' : state) (e : exn) :
  route_post w albums gifs nsfw path p st = (st', Raise e) ->
  route_posts w (p :: posts) albums gifs nsfw path st = (st', Raise e).
Proof. intros H. rewrite route_posts_cons, H. reflexivity. Qed.

(** C4 (amended).  [ConnectionError], which [get_request] raises on a
    response that is not [ok], and [AttributeError], which the resolver
    raises when no element matches, are caught at the post boundary: when
    either is raised while a post is resolved, or [ConnectionError] while the
    resolved URL is fetched, one line that starts with [[-]] is printed and
    the run goes on with the next post.  The error of a body that is not a
    zip archive has no handler: it leaves [route_posts], and the posts
    after it are not handled. *)
Theorem listed_errors_at_post_boundary (p : post) (posts : list post) (st : state) :
  skip_before_resolve p nsfw = false ->
  (forall st' e,
     get_post_image_url w p st = (st', Raise e) ->
     e = ConnectionError \/ e = AttributeError ->
     exists line, startswith "[-] " line = true
       /\ route_posts w (p :: posts) albums gifs nsfw path st
          = route_posts w posts albums gifs nsfw path (log st' (Print line)))
  /\ (forall st1 st2 st3 url,
        get_post_image_url w p st = (st1, Ok (Some url)) ->
        ignore_post (Some url) albums gifs (post_title p) st1 = (st2, Ok false) ->
        get_request w url st2 = (st3, Raise ConnectionError) ->
        exists line, startswith "[-] " line = true
          /\ route_posts w (p :: posts) albums gifs nsfw path st
             = route_posts w posts albums gifs nsfw path (log st3 (Print line)))
  /\ (forall st1 st2 st3 url req,
        get_post_image_url w p st = (st1, Ok (Some url)) ->
        ignore_post (Some url) albums gifs (post_title p) st1 = (st2, Ok false) ->
        get_request w url st2 = (st3, Ok req) ->
        contains "/zip" url = true ->
        unzip w (content req) = None ->
        route_posts w (p :: posts) albums gifs nsfw path st = (st3, Raise BadZipFile)).
Proof.
  intros Hskip. split; [|split].
  - intros st' e Hres [-> | ->].
    + exists ("[-] Encountered bad url: " ++ post_url p). split; [reflexivity |].
      apply route_posts_continue.
      now rewrite (route_post_resolve_raises w albums gifs nsfw path p st _ _ Hskip Hres).
    + exists ("[-] Could not extract link from " ++ post_url p). split; [reflexivity |].
      apply route_posts_continue.
      now rewrite (route_post_resolve_raises w albums gifs nsfw path p st _ _ Hskip Hres).
  - intros st1 st2 st3 url Hres Hign Hreq.
    exists ("[-] Encountered bad url: " ++ url). split; [reflexivity |].
    apply route_posts_continue.
    rewrite (route_post_resolved w albums gifs nsfw path p st _ _ Hskip Hres), Hign.
    rewrite get_request_eq in Hreq. injection Hreq as <- Hreq.
    destruct (session_get w (with_scheme url)) as [req|]; [|discriminate].
    destruct (ok req); [discriminate | reflexivity].
  - intros st1 st2 st3 url req Hres Hign Hreq Hzip Hunzip.
    apply route_posts_raise.
    rewrite (route_post_resolved w albums gifs nsfw path p st _ _ Hskip Hres), Hign.
    rewrite get_request_eq in Hreq. injection Hreq as <- Hreq.
    destruct (session_get w (with_scheme url)) as [req'|]; [|discriminate].
    destruct (ok req'); [|discriminate]. injection Hreq as ->.
    rewrite Hzip. unfold bind, extract_album. rewrite Hunzip. reflexivity.
Qed.

End Errors.

Lemma listed_errors_at_post_boundary_witness :
  skip_before_resolve Fixture.gone_post false = false
  /\ get_post_image_url Fixture.w Fixture.gone_post builtin_state
     = (log builtin_state (Get "http://example.com/gone"), Raise ConnectionError)
  /\ (exists line, startswith "[-] " line = true
       /\ route_posts Fixture.w [Fixture.gone_post; Fixture.jpg_post] true true false "pics"
            builtin_state
          = route_posts Fixture.w [Fixture.jpg_post] true true false "pics"
              (log (log builtin_state (Get "http://example.com/gone")) (Print line)))
  /\ get_request Fixture.w "http://example.com/gone.jpg" builtin_state
     = (log builtin_state (Get "http://example.com/gone.jpg"), Raise ConnectionError)
  /\ (exists line, startswith "[-] " line = true
       /\ route_posts Fixture.w [Fixture.gone_jpg_post; Fixture.jpg_post] true true false "pics"
            builtin_state
          = route_posts Fixture.w [Fixture.jpg_post] true true false "pics"
              (log (log builtin_state (Get "http://example.com/gone.jpg")) (Print line)))
  /\ unzip Fixture.w "oops" = None
  /\ route_posts Fixture.w [Fixture.broken_album_post; Fixture.jpg_post] true true false "pics"
       builtin_state
     = (log builtin_state (Get "http://imgur.com/a/broken/zip"), Raise BadZipFile).
Proof.
  assert (Hres : get_post_image_url Fixture.w Fixture.gone_post builtin_state
                 = (log builtin_state (Get "http://example.com/gone"), Raise ConnectionError))
    by (vm_compute; reflexivity).
  assert (Hreq : get_request Fixture.w "http://example.com/gone.jpg" builtin_state
                 = (log builtin_state (Get "http://example.com/gone.jpg"),
                    Raise ConnectionError))
    by (vm_compute; reflexivity).
  split; [reflexivity |]. split; [exact Hres |].
  split.
  { refine (proj1 (listed_errors_at_post_boundary Fixture.w true true false "pics"
      Fixture.gone_post [Fixture.jpg_post] builtin_state _) _ _ Hres _);
      [reflexivity | left; reflexivity]. }
  split; [exact Hreq |].
  split.
  { refine (proj1 (proj2 (listed_errors_at_post_boundary Fixture.w true true false "pics"
      Fixture.gone_jpg_post [Fixture.jpg_post] builtin_state _))
      builtin_state builtin_state _ "http://example.com/gone.jpg" _ _ Hreq);
      reflexivity. }
  split; [reflexivity |].
  refine (proj2 (proj2 (listed_errors_at_post_boundary Fixture.w true true false "pics"
    Fixture.broken_album_post [Fixture.jpg_post] builtin_state _))
    builtin_state builtin_state _ "http://imgur.com/a/broken/zip"
    (Response true "http://imgur.com/a/broken/zip" "" "oops") _ _ _ _ _);
    reflexivity.
Defined.

(** The run of that witness, event by event: the failure is logged and the
    next post is downloaded. *)
Example unreachable_then_next :
  trace (route_posts Fixture.w [Fixture.gone_post; Fixture.empty_page_post; Fixture.jpg_post]
           true true false "pics" builtin_state).1
  = [ Get "http://example.com/gone";
      Print "[-] Encountered bad url: http://example.com/gone";
      Get "http://example.com/post/3";
      Print "[-] Could not extract link from http://example.com/post/3";
      Get "http://i.imgur.com/Cat.JPG";
      WriteFile "pics/Cat.JPG" "bytes";
      Print "[+] Downloaded cat" ].
Proof. vm_compute; reflexivity. Qed.

(** C4, as stated, fails for the malformed archive: the album of the first
    post is not a zip archive, [BadZipFile] leaves [route_posts], nothing is
    logged for the post and the second post is never handled. *)
Lemma malformed_archive_counterexample :
  route_posts Fixture.w [Fixture.broken_album_post; Fixture.jpg_post] true true false "pics"
    builtin_state
  = (log builtin_state (Get "http://imgur.com/a/broken/zip"), Raise BadZipFile).
Proof. vm_compute; reflexivity. Qed.

(** ** The filter (C6, C7) *)

Section Filter.

Variable w : world.
Variables albums gifs nsfw : bool.
Variable path : string.

Lemma endswith_gifv_any (url : string) :
  endswith ".gifv" url = true -> endswith_any [".gif"; ".gifv"] url = true.
Proof. intros H. unfold endswith_any. simpl. rewrite H. apply orb_true_r. Qed.

(** C6 (amended).  For a resolved URL that ends in [.gifv] and that the album
    rule does not take first (it has no [/zip] in it, or albums are allowed),
    the filter skips the post exactly when [gifs] is false and lets it
    through, without a line, when [gifs] is true.  For a resolved URL that
    contains [/zip], the filter skips the post when [albums] is false; when
    [albums] is true it lets the post through, provided the gif rule does not
    take it (the URL ends in neither [.gif] nor [.gifv], or gifs are
    allowed). *)
Theorem policy_flags_decide (url title : string) (st : state) :
  (endswith ".gifv" url = true ->
   contains "/zip" url = false \/ albums = true ->
   ignore_post (Some url) albums gifs title st =
   (if gifs then st else log st (Print ("[-] Ignoring gif: " ++ title)), Ok (negb gifs)))
  /\ (contains "/zip" url = true ->
      endswith_any [".gif"; ".gifv"] url = false \/ gifs = true \/ albums = false ->
      ignore_post (Some url) albums gifs title st =
      (if albums then st else log st (Print ("[-] Ignoring album: " ++ title)),
       Ok (negb albums))).
Proof.
  split.
  - intros Hgifv Halbum. rewrite ignore_post_eq, (endswith_gifv_any _ Hgifv).
    assert (contains "/zip" url && negb albums = false) as ->
      by (destruct Halbum as [-> | ->]; [reflexivity | apply andb_false_r]).
    destruct gifs; reflexivity.
  - intros Hzip Hgif. rewrite ignore_post_eq, Hzip.
    destruct albums; [|reflexivity]. cbn [negb andb].
    assert (endswith_any [".gif"; ".gifv"] url && negb gifs = false) as ->
      by (destruct Hgif as [-> | [-> | ?]];
          [reflexivity | apply andb_false_r | discriminate]).
    reflexivity.
Qed.

(** The resolver prints nothing: what it appends to the trace is at most
    the GET of the page. *)
Lemma get_post_image_url_no_line (p : post) (st st1 : state) (r : result (option string)) :
  get_post_image_url w p st = (st1, r) ->
  exists d, trace st1 = (trace st ++ d)%list /\ forall line, ~ In (Print line) d.
Proof.
  intros Hres.
  destruct (endswith_any IMAGE_FORMATS (lower (post_url p))) eqn:Hext.
  { rewrite get_post_image_url_direct in Hres by exact Hext. injection Hres as <- _.
    exists []. split; [symmetry; apply app_nil_r | intros line []]. }
  destruct (contains "/a/" (post_url p)) eqn:Ha.
  { rewrite get_post_image_url_album in Hres by assumption. injection Hres as <- _.
    exists []. split; [symmetry; apply app_nil_r | intros line []]. }
  rewrite get_post_image_url_page in Hres by assumption.
  exists [Get (with_scheme (post_url p))]. split.
  - rewrite <- (get_direct_image_url_trace w (post_url p) st). now rewrite Hres.
  - intros line [H | []]. discriminate.
Qed.

(** C7 (amended).  A post that the opening test rejects (stickied, self
    post, adult against the policy) is skipped without any log line: the
    state, trace included, is as before.  A post that is skipped after
    resolution, because its resolved URL has [/zip] in it while albums are
    off, or else ends in [.gif] or [.gifv] while gifs are off, leaves the
    router with exactly one line printed: nothing is printed while it is
    resolved, and the router ends on the trace of the resolution followed by
    [[-] Ignoring album: ] or [[-] Ignoring gif: ] and the title of the post.
    The line gives the reason and the title, and not the resolved URL; and
    the filter skips for no other reason. *)
Theorem skip_log_lines (p : post) (st : state) :
  (skip_before_resolve p nsfw = true ->
   route_post w albums gifs nsfw path p st = (st, Ok tt))
  /\ (forall url st',
        ignore_post (Some url) albums gifs (post_title p) st = (st', Ok true) ->
        (contains "/zip" url = true /\ albums = false
         /\ st' = log st (Print ("[-] Ignoring album: " ++ post_title p)))
        \/ (endswith_any [".gif"; ".gifv"] url = true /\ gifs = false
            /\ st' = log st (Print ("[-] Ignoring gif: " ++ post_title p))))
  /\ (skip_before_resolve p nsfw = false ->
      forall url st1,
        get_post_image_url w p st = (st1, Ok (Some url)) ->
        (exists d, trace st1 = (trace st ++ d)%list /\ forall line, ~ In (Print line) d)
        /\ (contains "/zip" url = true -> albums = false ->
            route_post w albums gifs nsfw path p st
            = (log st1 (Print ("[-] Ignoring album: " ++ post_title p)), Ok tt))
        /\ (contains "/zip" url = false \/ albums = true ->
            endswith_any [".gif"; ".gifv"] url = true -> gifs = false ->
            route_post w albums gifs nsfw path p st
            = (log st1 (Print ("[-] Ignoring gif: " ++ post_title p)), Ok tt))).
Proof.
  split; [apply route_post_skipped |]. split.
  - intros url st'. rewrite ignore_post_eq.
    destruct (contains "/zip" url && negb albums) eqn:H1.
    + intros [= <-]. left.
      apply andb_true_iff in H1 as [Hzip Hn]. apply negb_true_iff in Hn. auto.
    + destruct (endswith_any [".gif"; ".gifv"] url && negb gifs) eqn:H2.
      * intros [= <-]. right.
        apply andb_true_iff in H2 as [Hgif Hn]. apply negb_true_iff in Hn. auto.
      * discriminate.
  - intros Hskip url st1 Hres.
    split; [exact (get_post_image_url_no_line p st st1 _ Hres) |].
    pose proof (route_post_resolved w albums gifs nsfw path p st st1 _ Hskip Hres) as Hroute.
    rewrite ignore_post_eq in Hroute. split.
    + intros Hzip Halbums. rewrite Hroute, Hzip, Halbums. reflexivity.
    + intros Hno Hgif Hgifs. rewrite Hroute.
      assert (contains "/zip" url && negb albums = false) as ->
        by (destruct Hno as [-> | ->]; [reflexivity | apply andb_false_r]).
      rewrite Hgif, Hgifs. reflexivity.
Qed.

End Filter.

Lemma policy_flags_decide_witness :
  endswith ".gifv" "http://i.imgur.com/cat.gifv" = true
  /\ ignore_post (Some "http://i.imgur.com/cat.gifv") false false "cat" builtin_state
     = (log builtin_state (Print "[-] Ignoring gif: cat"), Ok true)
  /\ ignore_post (Some "http://i.imgur.com/cat.gifv") false true "cat" builtin_state
     = (builtin_state, Ok false)
  /\ contains "/zip" "http://imgur.com/a/XYZ/zip" = true
  /\ ignore_post (Some "http://imgur.com/a/XYZ/zip") false true "album" builtin_state
     = (log builtin_state (Print "[-] Ignoring album: album"), Ok true)
  /\ ignore_post (Some "http://imgur.com/a/XYZ/zip") true true "album" builtin_state
     = (builtin_state, Ok false).
Proof.
  split; [reflexivity |].
  split; [exact (proj1 (policy_flags_decide false false "http://i.imgur.com/cat.gifv" "cat"
                          builtin_state) eq_refl (or_introl eq_refl)) |].
  split; [exact (proj1 (policy_flags_decide false true "http://i.imgur.com/cat.gifv" "cat"
                          builtin_state) eq_refl (or_introl eq_refl)) |].
  split; [reflexivity |].
  split; [exact (proj2 (policy_flags_decide false true "http://imgur.com/a/XYZ/zip" "album"
                          builtin_state) eq_refl (or_introl eq_refl)) |].
  exact (proj2 (policy_flags_decide true true "http://imgur.com/a/XYZ/zip" "album"
                  builtin_state) eq_refl (or_introl eq_refl)).
Defined.

(** C6, as stated, fails where both rules apply.  A URL with [/zip] in it
    that ends in [.gifv] is skipped as an album although [gifs] is true, and
    is skipped as a gif although [albums] is true. *)
Lemma policy_flags_counterexample :
  endswith ".gifv" "http://example.com/zip/a.gifv" = true
  /\ contains "/zip" "http://example.com/zip/a.gifv" = true
  /\ ignore_post (Some "http://example.com/zip/a.gifv") false true "a" builtin_state
     = (log builtin_state (Print "[-] Ignoring album: a"), Ok true)
  /\ ignore_post (Some "http://example.com/zip/a.gifv") true false "a" builtin_state
     = (log builtin_state (Print "[-] Ignoring gif: a"), Ok true).
Proof. repeat split; reflexivity. Qed.

Lemma skip_log_lines_witness :
  skip_before_resolve Fixture.sticky_post true = true
  /\ route_post Fixture.w true true true "pics" Fixture.sticky_post builtin_state
     = (builtin_state, Ok tt)
  /\ skip_before_resolve Fixture.album_post false = false
  /\ get_post_image_url Fixture.w Fixture.album_post builtin_state
     = (builtin_state, Ok (Some "http://imgur.com/a/XYZ/zip"))
  /\ route_post Fixture.w false true false "pics" Fixture.album_post builtin_state
     = (log builtin_state (Print "[-] Ignoring album: album"), Ok tt)
  /\ skip_before_resolve Fixture.lower_gif_post false = false
  /\ get_post_image_url Fixture.w Fixture.lower_gif_post builtin_state
     = (builtin_state, Ok (Some "http://i.imgur.com/cat.gif"))
  /\ route_post Fixture.w true false false "pics" Fixture.lower_gif_post builtin_state
     = (log builtin_state (Print "[-] Ignoring gif: quiet cat"), Ok tt).
Proof.
  assert (Halbum : get_post_image_url Fixture.w Fixture.album_post builtin_state
                   = (builtin_state, Ok (Some "http://imgur.com/a/XYZ/zip")))
    by reflexivity.
  assert (Hgif : get_post_image_url Fixture.w Fixture.lower_gif_post builtin_state
                 = (builtin_state, Ok (Some "http://i.imgur.com/cat.gif")))
    by reflexivity.
  split; [reflexivity |].
  split; [exact (proj1 (skip_log_lines Fixture.w true true true "pics" Fixture.sticky_post
                          builtin_state) eq_refl) |].
  split; [reflexivity |]. split; [exact Halbum |].
  split; [exact (proj1 (proj2 (proj2 (proj2 (skip_log_lines Fixture.w false true false "pics"
                   Fixture.album_post builtin_state)) eq_refl _ _ Halbum))
                   eq_refl eq_refl) |].
  split; [reflexivity |]. split; [exact Hgif |].
  exact (proj2 (proj2 (proj2 (proj2 (skip_log_lines Fixture.w true false false "pics"
           Fixture.lower_gif_post builtin_state)) eq_refl _ _ Hgif))
           (or_introl eq_refl) eq_refl eq_refl).
Defined.

(** C7, as stated, fails.  A stickied post and an adult post are skipped
    without a line; the line of an album skip carries the title, not the
    resolved URL. *)
Lemma skip_log_lines_counterexample :
  trace (route_posts Fixture.w [Fixture.sticky_post; Fixture.adult_post] true true false
           "pics" builtin_state).1 = []
  /\ trace (route_posts Fixture.w [Fixture.album_post] false true false "pics"
              builtin_state).1 = [Print "[-] Ignoring album: album"]
  /\ contains "http://imgur.com/a/XYZ/zip" "[-] Ignoring album: album" = false
  /\ contains (post_url Fixture.album_post) "[-] Ignoring album: album" = false.
Proof. repeat split; vm_compute; reflexivity. Qed.

(** ** Upper-case gif extensions (C10) *)

Section GifCase.

Variable w : world.

Lemma gif_extension_is_image (s : string) :
  endswith_any [".gif"; ".gifv"] s = true -> endswith_any IMAGE_FORMATS s = true.
Proof.
  unfold endswith_any, IMAGE_FORMATS. cbn [existsb].
  intros H. apply orb_true_iff in H as [H | H].
  - rewrite H. now rewrite !orb_true_r.
  - rewrite orb_false_r in H. rewrite H. now rewrite !orb_true_r.
Qed.

(** C10.  The resolver compares the lower-cased URL with the extensions, the
    filter compares the URL as it is.  A post whose URL ends in a gif
    extension in upper or mixed case is therefore resolved as a direct image,
    unchanged and without a GET; the gif rule of the filter never applies to
    it, whatever [gifs] is; and with [gifs] false the post, when the opening
    test lets it in, the URL has no [/zip] in it, the fetch succeeds and the
    file can be written, is downloaded: one GET, the file, and the line
    [[+] Downloaded ] with its title. *)
Theorem upper_case_gif_is_downloaded (p : post) (albums nsfw : bool) (path : string)
    (st : state) :
  endswith_any [".gif"; ".gifv"] (lower (post_url p)) = true ->
  endswith_any [".gif"; ".gifv"] (post_url p) = false ->
  get_post_image_url w p st = (st, Ok (Some (post_url p)))
  /\ ignore_post (Some (post_url p)) albums false (post_title p) st
     = ignore_post (Some (post_url p)) albums true (post_title p) st
  /\ forall req,
       skip_before_resolve p nsfw = false ->
       contains "/zip" (post_url p) = false ->
       session_get w (with_scheme (post_url p)) = Some req -> ok req = true ->
       open_wb w (os_path_join path (basename (resp_url req))) = true ->
       route_post w albums false nsfw path p st
       = (log (log (log st (Get (with_scheme (post_url p))))
                   (WriteFile (os_path_join path (basename (resp_url req))) (content req)))
              (Print ("[+] Downloaded " ++ post_title p)),
          Ok tt).
Proof.
  intros Hlower Hcase.
  assert (Hres : get_post_image_url w p st = (st, Ok (Some (post_url p))))
    by (apply get_post_image_url_direct, gif_extension_is_image, Hlower).
  split; [exact Hres |]. split.
  - rewrite !ignore_post_eq, Hcase. reflexivity.
  - intros req Hskip Hzip Hget Hok Hopen.
    rewrite (route_post_resolved w albums false nsfw path p st _ _ Hskip Hres).
    rewrite ignore_post_eq, Hzip, Hcase. cbn [andb].
    rewrite Hget, Hok.
    unfold bind, save_image, emit, print. rewrite Hopen. reflexivity.
Qed.

End GifCase.

Lemma upper_case_gif_is_downloaded_witness :
  endswith_any [".gif"; ".gifv"] (lower (post_url Fixture.upper_gif_post)) = true
  /\ endswith_any [".gif"; ".gifv"] (post_url Fixture.upper_gif_post) = false
  /\ get_post_image_url Fixture.w Fixture.upper_gif_post builtin_state
     = (builtin_state, Ok (Some "http://i.imgur.com/Cat.GIF"))
  /\ route_post Fixture.w true false false "pics" Fixture.upper_gif_post builtin_state
     = (log (log (log builtin_state (Get "http://i.imgur.com/Cat.GIF"))
                 (WriteFile "pics/Cat.GIF" "bytes"))
            (Print "[+] Downloaded loud cat"),
        Ok tt).
Proof.
  assert (H1 : endswith_any [".gif"; ".gifv"] (lower (post_url Fixture.upper_gif_post)) = true)
    by reflexivity.
  assert (H2 : endswith_any [".gif"; ".gifv"] (post_url Fixture.upper_gif_post) = false)
    by reflexivity.
  split; [exact H1 |]. split; [exact H2 |].
  destruct (upper_case_gif_is_downloaded Fixture.w Fixture.upper_gif_post true false "pics"
              builtin_state H1 H2) as (Hres & _ & Hdown).
  split; [exact Hres |].
  exact (Hdown (Response true "http://i.imgur.com/Cat.GIF" "" "bytes")
           eq_refl eq_refl eq_refl eq_refl eq_refl).
Defined.

(** The same picture with the extension in lower case is skipped when
    [gifs] is false. *)
Example lower_case_gif_is_skipped :
  route_post Fixture.w true false false "pics" Fixture.lower_gif_post builtin_state
  = (log builtin_state (Print "[-] Ignoring gif: quiet cat"), Ok tt).
Proof. vm_compute; reflexivity. Qed.

(** ** A whole run *)

(** The listing of three posts of the specification, albums off: the image
    of the first post is written, the album is skipped, the unreachable page
    is logged, and one file has been written. *)
Example three_post_listing :
  route_posts Fixture.w
    [ Fixture.link_post "http://i.imgur.com/cat.jpg" "one";
      Fixture.link_post "imgur.com/a/XYZ" "two";
      Fixture.gone_post ]
    false true false "pics" builtin_state
  = (State (heap builtin_state) (IMAGE_SELECTORS builtin_state)
       [ Get "http://i.imgur.com/cat.jpg";
         WriteFile "pics/cat.jpg" "bytes";
         Print "[+] Downloaded one";
         Print "[-] Ignoring album: two";
         Get "http://example.com/gone";
         Print "[-] Encountered bad url: http://example.com/gone" ],
     Ok tt).
Proof. vm_compute; reflexivity. Qed.

(** * Further properties of the pipeline *)

(** ** What a run appends to the trace *)

Section Counting.

Variable f : event -> bool.

Lemma count_app (d1 d2 : list event) : count f (d1 ++ d2) = count f d1 + count f d2.
Proof. unfold count. now rewrite List.filter_app, length_app. Qed.

Lemma count_one (e : event) : count f [e] <= 1.
Proof. unfold count. simpl. destruct (f e); simpl; lia. Qed.

Lemma spends_weaken {A} (m : M A) (n n' : nat) : spends f m n -> n <= n' -> spends f m n'.
Proof. intros H Hle st. destruct (H st) as (d & Hd & Hn). exists d. split; [exact Hd | lia]. Qed.

Lemma spends_ret {A} (a : A) : spends f (ret a) 0.
Proof. intros st. exists []. split; [symmetry; apply app_nil_r | reflexivity]. Qed.

Lemma spends_raise {A} (e : exn) : spends f (@raise A e) 0.
Proof. intros st. exists []. split; [symmetry; apply app_nil_r | reflexivity]. Qed.

Lemma spends_emit (e : event) (n : nat) : count f [e] <= n -> spends f (emit e) n.
Proof. intros H st. exists [e]. split; [reflexivity | exact H]. Qed.

Lemma spends_bind {A B} (m : M A) (k : A -> M B) (n1 n2 : nat) :
  spends f m n1 -> (forall a, spends f (k a) n2) -> spends f (bind m k) (n1 + n2).
Proof.
  intros Hm Hk st. unfold bind. destruct (Hm st) as (d1 & Hd1 & Hn1).
  destruct (m st) as [st' [a|e]]; simpl in *.
  - destruct (Hk a st') as (d2 & Hd2 & Hn2). exists (d1 ++ d2)%list. split.
    + now rewrite Hd2, Hd1, app_assoc.
    + rewrite count_app. lia.
  - exists d1. split; [exact Hd1 | lia].
Qed.

Lemma spends_try_except {A} (m : M A) (h : exn -> option (M A)) (n1 n2 : nat) :
  spends f m n1 -> (forall e k, h e = Some k -> spends f k n2) ->
  spends f (try_except m h) (n1 + n2).
Proof.
  intros Hm Hh st. unfold try_except. destruct (Hm st) as (d1 & Hd1 & Hn1).
  destruct (m st) as [st' [a|e]]; simpl in *.
  - exists d1. split; [exact Hd1 | lia].
  - destruct (h e) as [k|] eqn:He.
    + destruct (Hh e k He st') as (d2 & Hd2 & Hn2). exists (d1 ++ d2)%list. split.
      * now rewrite Hd2, Hd1, app_assoc.
      * rewrite count_app. lia.
    + exists d1. split; [exact Hd1 | lia].
Qed.

End Counting.

Section RunTrace.

Variable w : world.

(** The bounds below hold for every way of counting that charges at most
    [cg] for a GET of a URL with its protocol, at most [cp] for a file or an
    archive, and at most [cl] for a line with either prefix. *)
Section Charged.

Variable f : event -> bool.
Variables cg cp cl : nat.
Hypothesis charge_get : forall url, count f [Get (with_scheme url)] <= cg.
Hypothesis charge_write : forall file body, count f [WriteFile file body] <= cp.
Hypothesis charge_extract : forall path entries, count f [ExtractAll path entries] <= cp.
Hypothesis charge_failure : forall s, count f [Print ("[-] " ++ s)] <= cl.
Hypothesis charge_success : forall s, count f [Print ("[+] " ++ s)] <= cl.

Lemma spends_get_request (url : string) : spends f (get_request w url) cg.
Proof.
  intros st. exists [Get (with_scheme url)].
  split; [apply get_request_trace | apply charge_get].
Qed.

Lemma spends_get_post_image_url (p : post) : spends f (get_post_image_url w p) cg.
Proof.
  unfold get_post_image_url.
  destruct (endswith_any IMAGE_FORMATS (lower (post_url p)));
    [eapply spends_weaken; [apply spends_ret | lia] |].
  destruct (contains "/a/" (post_url p));
    [eapply spends_weaken; [apply spends_ret | lia] |].
  eapply spends_weaken; [apply (spends_try_except f _ _ cg 0) | lia].
  - intros st. exists [Get (with_scheme (post_url p))].
    split; [apply get_direct_image_url_trace | apply charge_get].
  - intros e k He. destruct e; inversion He; apply spends_raise.
Qed.

Lemma spends_ignore_post (url : option string) (albums gifs : bool) (title : string) :
  spends f (ignore_post url albums gifs title) cl.
Proof.
  destruct url as [url|]; [|eapply spends_weaken; [apply spends_raise | lia]].
  unfold ignore_post.
  destruct (contains "/zip" url && negb albums).
  { eapply spends_weaken; [apply (spends_bind f _ _ cl 0) | lia].
    - apply spends_emit, (charge_failure ("Ignoring album: " ++ title)).
    - intros; apply spends_ret. }
  destruct (endswith_any [".gif"; ".gifv"] url && negb gifs).
  { eapply spends_weaken; [apply (spends_bind f _ _ cl 0) | lia].
    - apply spends_emit, (charge_failure ("Ignoring gif: " ++ title)).
    - intros; apply spends_ret. }
  eapply spends_weaken; [apply spends_ret | lia].
Qed.

Lemma spends_persist (url : string) (req : response) (path : string) :
  spends f (if contains "/zip" url then extract_album w req path
            else save_image w req path) cp.
Proof.
  destruct (contains "/zip" url).
  - unfold extract_album. destruct (unzip w _).
    + apply spends_emit, charge_extract.
    + eapply spends_weaken; [apply spends_raise | lia].
  - unfold save_image. destruct (open_wb w _).
    + apply spends_emit, charge_write.
    + eapply spends_weaken; [apply spends_raise | lia].
Qed.

Lemma spends_route_post (albums gifs nsfw : bool) (path : string) (p : post) :
  spends f (route_post w albums gifs nsfw path p) (2 * cg + cp + 4 * cl).
Proof.
  unfold route_post.
  destruct (skip_before_resolve p nsfw);
    [eapply spends_weaken; [apply spends_ret | lia] |].
  eapply spends_weaken;
    [apply (spends_bind f _ _ (cg + cl) (cg + cp + 3 * cl)) | lia].
  { eapply spends_weaken; [apply (spends_try_except f _ _ (cg + 0) (cl + 0)) | lia].
    - apply spends_bind; [apply spends_get_post_image_url | intros; apply spends_ret].
    - intros e k He. destruct e; inversion He.
      + apply spends_bind; [|intros; apply spends_ret].
        apply spends_emit, (charge_failure ("Encountered bad url: " ++ post_url p)).
      + apply spends_bind; [|intros; apply spends_ret].
        apply spends_emit, (charge_failure ("Could not extract link from " ++ post_url p)). }
  intros [|url]; [eapply spends_weaken; [apply spends_ret | lia] |].
  eapply spends_weaken; [apply (spends_bind f _ _ cl (cg + cp + 2 * cl)) | lia];
    [apply spends_ignore_post |].
  intros [|]; simpl; [eapply spends_weaken; [apply spends_ret | lia] |].
  destruct url as [url|]; [|eapply spends_weaken; [apply spends_raise | lia]].
  eapply spends_weaken; [apply (spends_bind f _ _ (cg + cl) (cp + cl)) | lia].
  { eapply spends_weaken; [apply (spends_try_except f _ _ (cg + 0) (cl + 0)) | lia].
    - apply spends_bind; [apply spends_get_request | intros; apply spends_ret].
    - intros e k He. destruct e; inversion He.
      apply spends_bind; [|intros; apply spends_ret].
      apply spends_emit, (charge_failure ("Encountered bad url: " ++ url)). }
  intros [|req]; [eapply spends_weaken; [apply spends_ret | lia] |].
  apply spends_bind; [apply spends_persist |].
  intros _. apply spends_emit, (charge_success ("Downloaded " ++ post_title p)).
Qed.

Lemma spends_route_posts (posts : list post) (albums gifs nsfw : bool) (path : string) :
  spends f (route_posts w posts albums gifs nsfw path)
         (length posts * (2 * cg + cp + 4 * cl)).
Proof.
  induction posts as [|p posts IH]; [apply spends_ret |].
  cbn [route_posts length Nat.mul].
  apply spends_bind; [apply spends_route_post | intros _; exact IH].
Qed.

End Charged.

End RunTrace.

(** ** Requests *)

Section Requests.

Variable w : world.

Lemma with_scheme_has_scheme (url : string) : has_scheme (with_scheme url) = true.
Proof.
  unfold with_scheme, has_scheme.
  destruct (startswith_any ["http://"; "https://"] url) eqn:H; simpl negb; cbv iota.
  - exact H.
  - unfold startswith_any. cbn [existsb]. now rewrite (startswith_app "http://" url).
Qed.


(** X2.  Adding the protocol is idempotent, and a URL that has one is
    requested as it is: the URL that [get_request] asks for is a fixed point
    of its own normalisation. *)
Theorem with_scheme_idempotent (url : string) :
  with_scheme (with_scheme url) = with_scheme url
  /\ (has_scheme url = true -> with_scheme url = url).
Proof.
  assert (H : forall u, has_scheme u = true -> with_scheme u = u).
  { intros u Hu. unfold with_scheme. unfold has_scheme in Hu. now rewrite Hu. }
  split; [apply H, with_scheme_has_scheme | apply H].
Qed.

End Requests.

Lemma with_scheme_idempotent_witness :
  has_scheme "https://i.imgur.com/cat.jpg" = true
  /\ with_scheme "https://i.imgur.com/cat.jpg" = "https://i.imgur.com/cat.jpg".
Proof.
  split; [reflexivity |].
  exact (proj2 (with_scheme_idempotent "https://i.imgur.com/cat.jpg") eq_refl).
Defined.

(** ** Bounds on a run *)

Section RunBounds.

Variable w : world.
Variables albums gifs nsfw : bool.
Variable path : string.

Lemma count_zero_Forall (f : event -> bool) (d : list event) :
  count f d <= 0 -> Forall (fun e => f e = false) d.
Proof.
  unfold count. induction d as [|e d IH]; simpl; [constructor |].
  destruct (f e) eqn:He; simpl; [lia |]. intros H. constructor; auto.
Qed.

(** Nothing malformed is ever appended: the GETs carry a protocol and the
    lines a prefix. *)
Lemma route_posts_well_formed (posts : list post) (st : state) :
  exists d,
    trace (route_posts w posts albums gifs nsfw path st).1 = (trace st ++ d)%list
    /\ Forall (fun e => is_malformed e = false) d.
Proof.
  destruct (spends_route_posts w is_malformed 0 0 0) with
    (posts := posts) (albums := albums) (gifs := gifs) (nsfw := nsfw) (path := path)
    (st := st) as (d & Hd & Hn).
  - intros url. unfold count. cbn [List.filter is_malformed].
    now rewrite with_scheme_has_scheme.
  - reflexivity.
  - reflexivity.
  - intros s. unfold count. cbn [List.filter is_malformed].
    now rewrite (startswith_app "[-] " s).
  - intros s. unfold count. cbn [List.filter is_malformed].
    now rewrite (startswith_app "[+] " s), orb_true_r.
  - exists d. split; [exact Hd |]. apply count_zero_Forall. lia.
Qed.


(** X4.  A run writes at most one file or extracts at most one archive for
    each post of the listing. *)
Theorem at_most_one_file_per_post (posts : list post) (st : state) :
  exists d,
    trace (route_posts w posts albums gifs nsfw path st).1 = (trace st ++ d)%list
    /\ count is_persist d <= length posts.
Proof.
  destruct (spends_route_posts w is_persist 0 1 0) with
    (posts := posts) (albums := albums) (gifs := gifs) (nsfw := nsfw) (path := path)
    (st := st) as (d & Hd & Hn);
    try (intros; unfold count; simpl; lia).
  exists d. split; [exact Hd | lia].
Qed.

(** X5.  Every URL that a run requests starts with [http://] or
    [https://], whatever the posts and the pages contain. *)
Theorem every_get_has_scheme (posts : list post) (st : state) :
  exists d,
    trace (route_posts w posts albums gifs nsfw path st).1 = (trace st ++ d)%list
    /\ forall url, In (Get url) d -> has_scheme url = true.
Proof.
  destruct (route_posts_well_formed posts st) as (d & Hd & Hall).
  exists d. split; [exact Hd |]. intros url Hin.
  rewrite List.Forall_forall in Hall. specialize (Hall _ Hin). simpl in Hall.
  now apply negb_false_iff in Hall.
Qed.


End RunBounds.

(** ** Success lines and files *)

Section Balance.

Variable w : world.












End Balance.

(** ** Listings, part by part *)

Section Listings.

Variable w : world.
Variables albums gifs nsfw : bool.
Variable path : string.

(** X9.  Handling a listing is handling its front part and then, from
    the state this leaves, its back part; an exception in the front part ends
    the run and the back part is not handled. *)
Theorem route_posts_app (posts1 posts2 : list post) (st : state) :
  route_posts w (posts1 ++ posts2) albums gifs nsfw path st =
  match route_posts w posts1 albums gifs nsfw path st with
  | (st', Ok _) => route_posts w posts2 albums gifs nsfw path st'
  | (st', Raise e) => (st', Raise e)
  end.
Proof.
  revert st. induction posts1 as [|p posts1 IH]; intros st; [reflexivity |].
  rewrite <- app_comm_cons, !route_posts_cons.
  destruct (route_post w albums gifs nsfw path p st) as [st' [[]|e]];
    [apply IH | reflexivity].
Qed.

(** X10.  A listing in which every post is stickied, a self post, or an
    adult post while [nsfw] is off, is handled without a request, without a
    line and without an exception: the state is as before. *)
Theorem route_posts_all_skipped (posts : list post) (st : state) :
  Forall (fun p => skip_before_resolve p nsfw = true) posts ->
  route_posts w posts albums gifs nsfw path st = (st, Ok tt).
Proof.
  induction 1 as [|p posts Hp _ IH]; [reflexivity |].
  rewrite route_posts_cons, (route_post_skipped w albums gifs nsfw path p st Hp).
  exact IH.
Qed.

End Listings.

Lemma route_posts_all_skipped_witness :
  Forall (fun p => skip_before_resolve p false = true)
         [Fixture.sticky_post; Fixture.adult_post]
  /\ route_posts Fixture.w [Fixture.sticky_post; Fixture.adult_post] true true false "pics"
       builtin_state = (builtin_state, Ok tt).
Proof.
  assert (H : Forall (fun p => skip_before_resolve p false = true)
                     [Fixture.sticky_post; Fixture.adult_post])
    by (repeat constructor).
  split; [exact H |].
  exact (route_posts_all_skipped Fixture.w true true false "pics" _ builtin_state H).
Defined.

(** ** Albums, end to end *)

Section Albums.

Variable w : world.

(** Two suffixes of one string: one of them is a suffix of the other. *)
Lemma endswith_app_inv (x s t : string) :
  endswith x (s ++ t) = true -> endswith x t = true \/ endswith t x = true.
Proof.
  induction s as [|c s IH]; [now left |].
  rewrite app_cons. simpl. intros H. apply orb_true_iff in H as [H | H].
  - right. apply String.eqb_eq in H. subst x.
    rewrite <- app_cons. apply endswith_app.
  - now apply IH.
Qed.

(** The URL of an album archive never looks like a gif to the filter. *)
Lemma zip_url_is_no_gif (url : string) :
  endswith_any [".gif"; ".gifv"] (url ++ "/zip") = false.
Proof.
  unfold endswith_any. cbn [existsb].
  destruct (endswith ".gif" (url ++ "/zip")) eqn:H1.
  { apply endswith_app_inv in H1 as [H1 | H1]; discriminate. }
  destruct (endswith ".gifv" (url ++ "/zip")) eqn:H2; [|reflexivity].
  apply endswith_app_inv in H2 as [H2 | H2]; discriminate.
Qed.

(** X11.  With albums off, a post whose URL is an album (it contains
    [/a/] and does not end in a direct-image extension) is never fetched: the
    only thing its handling does is print [[-] Ignoring album: ] with
    its title, whatever the gifs flag. *)
Theorem album_post_not_fetched (gifs nsfw : bool) (path : string) (p : post) (st : state) :
  skip_before_resolve p nsfw = false ->
  contains "/a/" (post_url p) = true ->
  endswith_any IMAGE_FORMATS (lower (post_url p)) = false ->
  route_post w false gifs nsfw path p st
  = (log st (Print ("[-] Ignoring album: " ++ post_title p)), Ok tt).
Proof.
  intros Hskip Ha Hext.
  rewrite (route_post_resolved w false gifs nsfw path p st _ _ Hskip
             (get_post_image_url_album w p st Hext Ha)).
  now rewrite ignore_post_eq, contains_suffix.
Qed.

(** X12.  With albums on, such a post is fetched from its URL followed by
    [/zip] and, when the answer is [ok] and a zip archive, extracted into
    [path] and reported; the gifs flag has no say, since a URL that ends in
    [/zip] never ends in [.gif] or [.gifv]. *)
Theorem album_post_extracted (gifs nsfw : bool) (path : string) (p : post) (st : state)
    (req : response) (entries : list string) :
  skip_before_resolve p nsfw = false ->
  contains "/a/" (post_url p) = true ->
  endswith_any IMAGE_FORMATS (lower (post_url p)) = false ->
  session_get w (with_scheme (post_url p ++ "/zip")) = Some req -> ok req = true ->
  unzip w (content req) = Some entries ->
  route_post w true gifs nsfw path p st
  = (State (heap st) (IMAGE_SELECTORS st)
       (trace st ++ [ Get (with_scheme (post_url p ++ "/zip"));
                      ExtractAll path entries;
                      Print ("[+] Downloaded " ++ post_title p) ]),
     Ok tt).
Proof.
  intros Hskip Ha Hext Hget Hok Hzip.
  rewrite (route_post_resolved w true gifs nsfw path p st _ _ Hskip
             (get_post_image_url_album w p st Hext Ha)).
  rewrite ignore_post_eq, contains_suffix, zip_url_is_no_gif. cbn [negb andb].
  rewrite Hget, Hok.
  unfold bind, extract_album, print, emit, log. rewrite Hzip. simpl.
  now rewrite <- !app_assoc.
Qed.

End Albums.

Lemma album_post_not_fetched_witness :
  skip_before_resolve Fixture.album_post false = false
  /\ route_post Fixture.w false false false "pics" Fixture.album_post builtin_state
     = (log builtin_state (Print "[-] Ignoring album: album"), Ok tt).
Proof.
  split; [reflexivity |].
  exact (album_post_not_fetched Fixture.w false false "pics" Fixture.album_post
           builtin_state eq_refl eq_refl eq_refl).
Defined.

Lemma album_post_extracted_witness :
  unzip Fixture.w "PK" = Some ["1.jpg"; "2.jpg"]
  /\ route_post Fixture.w true false false "pics" Fixture.album_post builtin_state
     = (State (heap builtin_state) (IMAGE_SELECTORS builtin_state)
          [ Get "http://imgur.com/a/XYZ/zip";
            ExtractAll "pics" ["1.jpg"; "2.jpg"];
            Print "[+] Downloaded album" ],
        Ok tt).
Proof.
  split; [reflexivity |].
  exact (album_post_extracted Fixture.w false false "pics" Fixture.album_post builtin_state
           (Response true "http://imgur.com/a/XYZ/zip" "" "PK") ["1.jpg"; "2.jpg"]
           eq_refl eq_refl eq_refl eq_refl eq_refl eq_refl).
Defined.

(** ** The table after loading *)

Section LoadedTable.

Lemma builtin_default : table_view builtin_state !! "default" = Some default_rule.
Proof. vm_compute. reflexivity. Qed.

(** X13.  In every outcome of loading in which the import completes (no
    file, [IOError], [JSONDecodeError], or a JSON object of rules), looking
    up the rule of a domain in the loaded table never fails: there is always
    a [default] entry to fall back on.  In the first three the rules are the
    built-in ones. *)
Theorem rule_lookup_never_fails (f : selectors_file) (domain : string) :
  (exists r, rule_for (load_selectors f) domain = Ok r)
  /\ rule_for (load_selectors NoFile) domain = rule_for builtin_state domain
  /\ rule_for (load_selectors Unreadable) domain = rule_for builtin_state domain
  /\ rule_for (load_selectors Undecodable) domain = rule_for builtin_state domain.
Proof.
  split; [|repeat split; reflexivity].
  assert (Hb : exists r, rule_for builtin_state domain = Ok r)
    by (rewrite rule_for_view, builtin_default; eauto).
  destruct f as [| | |selectors]; try exact Hb.
  rewrite rule_for_view, (table_view_load selectors "default").
  destruct (selectors !! "default"); [eauto |].
  rewrite builtin_default. eauto.
Qed.

(** X14.  A domain that neither the file nor the built-in table knows gets
    the [default] rule of the merged table: the one of the file when the
    file has a [default] key, the built-in one otherwise. *)
Theorem unknown_domain_gets_default (selectors : gmap string rule) (domain : string) :
  selectors !! domain = None ->
  table_view builtin_state !! domain = None ->
  rule_for (load_selectors (Selectors selectors)) domain
  = Ok (default default_rule (selectors !! "default")).
Proof.
  intros Hsel Hbuiltin.
  rewrite rule_for_view, !table_view_load, Hsel, Hbuiltin.
  destruct (selectors !! "default"); [reflexivity |].
  now rewrite builtin_default.
Qed.

End LoadedTable.

Lemma unknown_domain_gets_default_witness :
  ({[ "default" := {[ "name" := "img"; "link" := "src" ]} ]} : gmap string rule)
    !! "example.com" = None
  /\ table_view builtin_state !! "example.com" = None
  /\ rule_for (load_selectors (Selectors {[ "default" := {[ "name" := "img"; "link" := "src" ]} ]}))
       "example.com"
     = Ok {[ "name" := "img"; "link" := "src" ]}.
Proof.
  assert (H1 : ({[ "default" := {[ "name" := "img"; "link" := "src" ]} ]}
                  : gmap string rule) !! "example.com" = None) by reflexivity.
  assert (H2 : table_view builtin_state !! "example.com" = None)
    by (vm_compute; reflexivity).
  split; [exact H1 |]. split; [exact H2 |].
  exact (unknown_domain_gets_default _ "example.com" H1 H2).
Defined.

(** ** The file that [save_image] writes *)

Section SavedFile.

Variable w : world.

Lemma contains_slash_cons (c : ascii) (s : string) :
  contains "/" (String c s) = Ascii.eqb c "/" || contains "/" s.
Proof.
  cbn [contains]. f_equal. unfold startswith. cbn [String.prefix].
  destruct (ascii_dec "/" c) as [<- | Hne].
  - rewrite Ascii.eqb_refl. now destruct s.
  - symmetry. apply Ascii.eqb_neq. congruence.
Qed.

Lemma basename_no_slash (s : string) : contains "/" (basename s) = false.
Proof.
  induction s as [|c s IH]; [reflexivity |].
  cbn [basename]. destruct (contains "/" s) eqn:Hs; [exact IH |].
  destruct (Ascii.eqb c "/") eqn:Hc; [exact Hs |].
  now rewrite contains_slash_cons, Hc, Hs.
Qed.

Lemma no_slash_no_leading_slash (s : string) :
  contains "/" s = false -> startswith "/" s = false.
Proof.
  intros H. destruct (startswith "/" s) eqn:Hs; [|reflexivity].
  now rewrite (contains_here _ _ Hs) in H.
Qed.

(** Every string is a directory part, empty or ending in a slash, followed
    by its [basename]. *)
Lemma basename_split (s : string) :
  exists dir, s = dir ++ basename s /\ (dir = "" \/ endswith "/" dir = true).
Proof.
  induction s as [|c s IH]; [exists ""; split; [reflexivity | now left] |].
  cbn [basename]. destruct (contains "/" s) eqn:Hs.
  - destruct IH as (dir & Hsplit & Hdir). exists (String c dir). split.
    + rewrite app_cons. congruence.
    + right. destruct Hdir as [-> | Hdir].
      * exfalso. change (s = basename s) in Hsplit.
        pose proof (basename_no_slash s) as Hno. rewrite <- Hsplit in Hno. congruence.
      * cbn [endswith]. rewrite Hdir. apply orb_true_r.
  - destruct (Ascii.eqb c "/") eqn:Hc.
    + apply Ascii.eqb_eq in Hc. subst c. exists "/". split; [reflexivity | now right].
    + exists "". split; [reflexivity | now left].
Qed.

(** X17.  When the file can be opened and written, [save_image] writes
    exactly one file, with the body of the response, and it never returns
    without having done so.  The name of the file is what follows the last
    slash of [req.url]: the URL is a part that is empty or ends in a slash,
    followed by a name without a slash.  The file is [path] followed by that
    name, with a slash in between unless [path] is empty or ends in one; so
    it is always directly inside [path]. *)
Theorem save_image_writes_inside_path (req : response) (path : string) (st : state) :
  exists dir name file,
    resp_url req = dir ++ name
    /\ (dir = "" \/ endswith "/" dir = true)
    /\ contains "/" name = false
    /\ file = path ++ (if String.eqb path "" || endswith "/" path then "" else "/") ++ name
    /\ startswith path file = true
    /\ (open_wb w file = true ->
        save_image w req path st = (log st (WriteFile file (content req)), Ok tt))
    /\ (forall st', save_image w req path st = (st', Ok tt) ->
                    st' = log st (WriteFile file (content req))).
Proof.
  destruct (basename_split (resp_url req)) as (dir & Hsplit & Hdir).
  pose proof (basename_no_slash (resp_url req)) as Hname.
  exists dir, (basename (resp_url req)), (os_path_join path (basename (resp_url req))).
  split; [exact Hsplit |]. split; [exact Hdir |]. split; [exact Hname |].
  assert (Hjoin : os_path_join path (basename (resp_url req))
                  = path ++ (if String.eqb path "" || endswith "/" path then "" else "/")
                         ++ basename (resp_url req)).
  { unfold os_path_join. rewrite (no_slash_no_leading_slash _ Hname).
    destruct (String.eqb path "" || endswith "/" path); reflexivity. }
  split; [exact Hjoin |]. split; [rewrite Hjoin; apply startswith_app |].
  unfold save_image. split.
  - intros ->. reflexivity.
  - intros st'. destruct (open_wb w _); [|discriminate]. now intros [= <-].
Qed.

End SavedFile.

(** A response that came from a redirect into a directory of the host: the
    file is named after the last segment of the final URL. *)
Example save_image_ex :
  save_image Fixture.w (Response true "http://cdn.example.com/img/2019/cat.jpg?s=1" "" "bytes")
    "pics/" builtin_state
  = (log builtin_state (WriteFile "pics/cat.jpg?s=1" "bytes"), Ok tt)
  /\ save_image Fixture.w (Response true "http://cdn.example.com/img/" "" "bytes")
       "pics" builtin_state
     = (log builtin_state (WriteFile "pics/" "bytes"), Ok tt).
Proof. split; vm_compute; reflexivity. Qed.

(** ** Listings of a subreddit *)

Section Sorts.

Variable r : reddit.

(** X18.  [get_subreddit_posts] accepts exactly the ten sort names that the
    docstring of [download] lists; any other name is a [KeyError] on that
    name. *)
Theorem sort_names_accepted (sub sort : string) (lim : Z) :
  (In sort documented_sorts ->
   exists posts, get_subreddit_posts r sub sort lim = Ok posts)
  /\ (~ In sort documented_sorts ->
      get_subreddit_posts r sub sort lim = Raise (KeyError sort)).
Proof.
  split.
  - intros Hin. unfold documented_sorts in Hin. simpl in Hin.
    repeat (destruct Hin as [<- | Hin]; [vm_compute; eauto |]).
    contradiction.
  - intros Hout. unfold get_subreddit_posts.
    assert (Hne : forall s, In s documented_sorts -> s <> sort)
      by (intros s Hs ->; contradiction).
    assert (Htop : existsb (String.eqb sort)
                     ["topyear"; "topmonth"; "topweek"; "topday"; "tophour"] = false).
    { cbn [existsb].
      repeat match goal with
             | |- context [String.eqb sort ?s] =>
                 replace (String.eqb sort s) with false
                   by (symmetry; apply String.eqb_neq; intros ->;
                       apply Hout; unfold documented_sorts; simpl; tauto)
             end.
      reflexivity. }
    rewrite Htop. unfold subreddit_sorter.
    rewrite !lookup_insert_ne, lookup_singleton_ne; [reflexivity | ..];
      apply Hne; unfold documented_sorts; simpl; tauto.
Qed.

(** X19.  Whatever listing [get_subreddit_posts] returns comes from one call
    of a listing method of the subreddit with the limit it was given.  A
    time filter is passed to [top] only, exactly when the sort name is
    [top] followed by [year], [month], [week], [day] or [hour], and it is
    that word. *)
Theorem listing_call (sub sort : string) (lim : Z) (posts : list post) :
  get_subreddit_posts r sub sort lim = Ok posts ->
  exists m tf,
    posts = listing r sub m lim tf
    /\ (forall x, tf = Some x ->
          m = by_top /\ sort = "top" ++ x
          /\ In x ["year"; "month"; "week"; "day"; "hour"])
    /\ (tf = None -> subreddit_sorter !! sort = Some m).
Proof.
  unfold get_subreddit_posts.
  destruct (existsb _ _) eqn:Htop.
  - intros [= <-]. exists by_top, (Some (slice_from 3 sort)).
    split; [reflexivity |]. split; [|discriminate].
    intros x [= <-]. split; [reflexivity |].
    apply existsb_exists in Htop as (s & Hs & Heq).
    apply String.eqb_eq in Heq. subst s. simpl in Hs.
    repeat (destruct Hs as [<- | Hs]; [split; [reflexivity | simpl; tauto] |]).
    contradiction.
  - destruct (subreddit_sorter !! sort) as [m|] eqn:Hm; [|discriminate].
    intros [= <-]. exists m, None. split; [reflexivity |].
    split; [discriminate | reflexivity].
Qed.

(** X20.  In a call with several subreddits the names are validated in
    the order given.  When no search fails with an exception other than
    [NotFound], the names handed to the pool are those for which the search
    returned, in order, and for each name that was not found, and only for
    those, one line [[-] Subreddit ... does not exist.] is printed, in
    order.  When a search fails with another exception, that exception leaves
    the call: the lines of the names before it that were not found have been
    printed, and no name after it is validated. *)
Theorem filter_validate_keeps_existing (subs : list string) (st : state) :
  (forallb (fun sub => negb (search_fails r sub)) subs = true ->
   filter_validate r subs st
   = (State (heap st) (IMAGE_SELECTORS st)
        (trace st ++ List.map missing_line (List.filter (is_missing r) subs)),
      Ok (List.filter (is_found r) subs)))
  /\ (forall before sub after,
        subs = (before ++ sub :: after)%list ->
        forallb (fun sub => negb (search_fails r sub)) before = true ->
        search_fails r sub = true ->
        filter_validate r subs st
        = (State (heap st) (IMAGE_SELECTORS st)
             (trace st ++ List.map missing_line (List.filter (is_missing r) before)),
           Raise PrawcoreException)).
Proof.
  split.
  - revert st. induction subs as [|sub subs IH]; intros st Hall.
    + simpl. unfold ret. rewrite app_nil_r. now destruct st.
    + cbn [forallb] in Hall. apply andb_true_iff in Hall as [Hsub Hall].
      cbn [filter_validate List.filter]. unfold bind at 1.
      unfold validate_subreddit, is_missing, is_found, search_fails in *.
      destruct (search_by_name r sub); [| |discriminate].
      * unfold ret at 1. unfold bind at 1. rewrite (IH _ Hall). reflexivity.
      * unfold bind at 1. unfold print, emit, ret at 1. unfold bind at 1.
        rewrite (IH _ Hall). cbn [List.map log heap IMAGE_SELECTORS trace].
        unfold missing_line at 2. now rewrite <- app_assoc.
  - intros before sub after ->. revert st.
    induction before as [|b before IH]; intros st Hall Hfails.
    + cbn [app filter_validate List.filter List.map]. unfold bind at 1.
      unfold validate_subreddit, search_fails in *.
      destruct (search_by_name r sub); try discriminate.
      unfold raise. rewrite app_nil_r. now destruct st.
    + cbn [forallb] in Hall. apply andb_true_iff in Hall as [Hb Hall].
      rewrite <- app_comm_cons. cbn [filter_validate List.filter]. unfold bind at 1.
      unfold validate_subreddit, is_missing, search_fails in Hb |- *.
      destruct (search_by_name r b); [| |discriminate].
      * unfold ret at 1. unfold bind at 1. rewrite (IH _ Hall Hfails). reflexivity.
      * unfold bind at 1. unfold print, emit, ret at 1. unfold bind at 1.
        rewrite (IH _ Hall Hfails). cbn [List.map log heap IMAGE_SELECTORS trace].
        unfold missing_line at 2. now rewrite <- app_assoc.
Qed.

End Sorts.

Lemma sort_names_accepted_witness :
  In "topweek" documented_sorts
  /\ (exists posts, get_subreddit_posts FixtureBot.r "pics" "topweek" 10 = Ok posts)
  /\ ~ In "topall" documented_sorts
  /\ get_subreddit_posts FixtureBot.r "pics" "topall" 10 = Raise (KeyError "topall").
Proof.
  assert (H1 : In "topweek" documented_sorts) by (unfold documented_sorts; simpl; tauto).
  assert (H2 : ~ In "topall" documented_sorts).
  { unfold documented_sorts. simpl. intros H.
    repeat (destruct H as [H | H]; [discriminate |]). exact H. }
  split; [exact H1 |].
  split; [exact (proj1 (sort_names_accepted FixtureBot.r "pics" "topweek" 10) H1) |].
  split; [exact H2 |].
  exact (proj2 (sort_names_accepted FixtureBot.r "pics" "topall" 10) H2).
Defined.

Lemma listing_call_witness :
  get_subreddit_posts FixtureBot.r "pics" "topweek" 10 = Ok [Fixture.jpg_post]
  /\ exists m tf,
       [Fixture.jpg_post] = listing FixtureBot.r "pics" m 10 tf
       /\ (forall x, tf = Some x ->
             m = by_top /\ "topweek" = "top" ++ x
             /\ In x ["year"; "month"; "week"; "day"; "hour"])
       /\ (tf = None -> subreddit_sorter !! "topweek" = Some m).
Proof.
  assert (H : get_subreddit_posts FixtureBot.r "pics" "topweek" 10 = Ok [Fixture.jpg_post])
    by reflexivity.
  split; [exact H |].
  exact (listing_call FixtureBot.r "pics" "topweek" 10 _ H).
Defined.

Lemma filter_validate_keeps_existing_witness :
  forallb (fun sub => negb (search_fails FixtureBot.r sub)) ["pics"; "nosuchsub"; "aww"] = true
  /\ filter_validate FixtureBot.r ["pics"; "nosuchsub"; "aww"] builtin_state
     = (log builtin_state (Print "[-] Subreddit nosuchsub does not exist."),
        Ok ["pics"; "aww"])
  /\ search_fails FixtureBot.r "private" = true
  /\ filter_validate FixtureBot.r ["nosuchsub"; "pics"; "private"; "gone"] builtin_state
     = (log builtin_state (Print "[-] Subreddit nosuchsub does not exist."),
        Raise PrawcoreException).
Proof.
  split; [reflexivity |].
  split; [exact (proj1 (filter_validate_keeps_existing FixtureBot.r
                          ["pics"; "nosuchsub"; "aww"] builtin_state) eq_refl) |].
  split; [reflexivity |].
  exact (proj2 (filter_validate_keeps_existing FixtureBot.r
                  ["nosuchsub"; "pics"; "private"; "gone"] builtin_state)
           ["nosuchsub"; "pics"] "private" ["gone"] eq_refl eq_refl eq_refl).
Defined.
